(** * Plover, Linux keyboard control: libevdev emulation and the backend facade

    A shallow embedding of
      - [plover/oslayer/linux/keyboardcontrol_libevdev.py]: the table from
        characters to input events, the Unicode entry sequence, and the
        emulation methods [send_backspaces] and [send_string];
      - [plover/oslayer/linux/keyboardcontrol.py]: the two facades that try
        the libevdev backend and fall back to X11, and their methods;
      - the rest of the libevdev module: [KEYNAME_TO_CHAR] and the methods
        that only raise [NotImplementedError].

    Conventions.
      - A Python one-character [str] is its code point, an [N].  A [str] is
        the list of its code points.
      - [EV_KEY.KEY_A] and [EV_SYN.SYN_REPORT] of libevdev are constructors
        of two enumerations; an [EventCode] is one or the other.
      - The two functions [_char_to_input_events] and
        [_char_to_unicode_sequence] call each other.  The recursion is
        bounded by a [fuel] argument, and the theorems show that a fuel of
        two is always enough.
      - Lazy iterators ([map], [chain]) are modelled by the lists they
        produce when [list(events)] forces them in [_send_events]. *)

From Stdlib Require Import String Ascii.
From Stdlib Require Import List ZArith NArith Lia Bool.
From Stdlib Require Import Hexadecimal HexadecimalString HexadecimalN HexadecimalFacts.
Import ListNotations.

Set Implicit Arguments.

(** ** Event codes of libevdev *)

Module EV_KEY.

Inductive t : Set :=
| KEY_ENTER | KEY_TAB | KEY_SPACE
| KEY_0 | KEY_1 | KEY_2 | KEY_3 | KEY_4 | KEY_5 | KEY_6 | KEY_7 | KEY_8 | KEY_9
| KEY_A | KEY_B | KEY_C | KEY_D | KEY_E | KEY_F | KEY_G | KEY_H | KEY_I
| KEY_J | KEY_K | KEY_L | KEY_M | KEY_N | KEY_O | KEY_P | KEY_Q | KEY_R
| KEY_S | KEY_T | KEY_U | KEY_V | KEY_W | KEY_X | KEY_Y | KEY_Z
| KEY_APOSTROPHE | KEY_MINUS | KEY_DOT | KEY_SLASH | KEY_SEMICOLON
| KEY_COMMA | KEY_EQUAL | KEY_LEFTBRACE | KEY_BACKSLASH | KEY_RIGHTBRACE
| KEY_GRAVE
| KEY_LEFTSHIFT | KEY_LEFTCTRL | KEY_BACKSPACE.

Scheme Equality for t.

(** Every key the two source files name. *)
Definition all : list t :=
  [ KEY_ENTER; KEY_TAB; KEY_SPACE;
    KEY_0; KEY_1; KEY_2; KEY_3; KEY_4; KEY_5; KEY_6; KEY_7; KEY_8; KEY_9;
    KEY_A; KEY_B; KEY_C; KEY_D; KEY_E; KEY_F; KEY_G; KEY_H; KEY_I;
    KEY_J; KEY_K; KEY_L; KEY_M; KEY_N; KEY_O; KEY_P; KEY_Q; KEY_R;
    KEY_S; KEY_T; KEY_U; KEY_V; KEY_W; KEY_X; KEY_Y; KEY_Z;
    KEY_APOSTROPHE; KEY_MINUS; KEY_DOT; KEY_SLASH; KEY_SEMICOLON;
    KEY_COMMA; KEY_EQUAL; KEY_LEFTBRACE; KEY_BACKSLASH; KEY_RIGHTBRACE;
    KEY_GRAVE;
    KEY_LEFTSHIFT; KEY_LEFTCTRL; KEY_BACKSPACE ].

End EV_KEY.

Module EV_SYN.

Inductive t : Set := SYN_REPORT.

End EV_SYN.

Inductive EventCode : Set :=
| Key (k : EV_KEY.t)
| Syn (s : EV_SYN.t).

Coercion Key : EV_KEY.t >-> EventCode.

(** [InputEvent(code, value)]: for a key, value 1 is a press and value 0 a
    release. *)
Record InputEvent : Set := mkInputEvent { code : EventCode; value : Z }.

Definition EventCode_eqb (a b : EventCode) : bool :=
  match a, b with
  | Key k, Key k' => EV_KEY.t_beq k k'
  | Syn _, Syn _ => true
  | _, _ => false
  end.

Definition InputEvent_eqb (a b : InputEvent) : bool :=
  EventCode_eqb (code a) (code b) && Z.eqb (value a) (value b).

(** ** Constants of the module *)

Definition SYN_REPORT         : InputEvent := mkInputEvent (Syn EV_SYN.SYN_REPORT) 0.
Definition LEFT_SHIFT_PRESS   : InputEvent := mkInputEvent EV_KEY.KEY_LEFTSHIFT 1.
Definition LEFT_SHIFT_RELEASE : InputEvent := mkInputEvent EV_KEY.KEY_LEFTSHIFT 0.
Definition BACKSPACE_PRESS    : InputEvent := mkInputEvent EV_KEY.KEY_BACKSPACE 1.
Definition BACKSPACE_RELEASE  : InputEvent := mkInputEvent EV_KEY.KEY_BACKSPACE 0.

Definition UNICODE_INPUT_INIT_EVENT_SEQUENCE : list InputEvent :=
  [ mkInputEvent EV_KEY.KEY_LEFTCTRL 1;
    LEFT_SHIFT_PRESS;
    SYN_REPORT;
    mkInputEvent EV_KEY.KEY_U 1;
    SYN_REPORT;
    mkInputEvent EV_KEY.KEY_U 0;
    SYN_REPORT ].

Definition UNICODE_INPUT_END_EVENT_SEQUENCE : list InputEvent :=
  [ LEFT_SHIFT_RELEASE;
    mkInputEvent EV_KEY.KEY_LEFTCTRL 0;
    SYN_REPORT ].

Definition _press_and_release (code : EventCode) : list InputEvent :=
  [ mkInputEvent code 1; SYN_REPORT; mkInputEvent code 0; SYN_REPORT ].

Definition _shift_press_and_release (code : EventCode) : list InputEvent :=
  [ LEFT_SHIFT_PRESS; mkInputEvent code 1; SYN_REPORT;
    mkInputEvent code 0; LEFT_SHIFT_RELEASE; SYN_REPORT ].

(** ** Characters and strings *)

(** A one-character Python string, as its code point. *)
Definition char : Set := N.

Definition str : Set := list char.

Definition ord (c : char) : N := c.

(** The character of a literal of the source. *)
Definition lit (a : ascii) : char := N_of_ascii a.

Definition str_of_string (s : string) : str := map lit (list_ascii_of_string s).

(** ['%x' % n] for a non-negative [n]: the lowercase hexadecimal digits of
    [n], without a prefix and without padding. *)
Definition format_x (n : N) : str :=
  str_of_string (NilEmpty.string_of_uint (N.to_hex_uint n)).

(** ** The table of directly typed characters *)

(** A dict literal, in the order of the source.  [dict_get] returns the
    first entry of a key; the keys of the table below are pairwise distinct
    ([LATIN_keys_NoDup]), so this is the lookup of the dict. *)
Fixpoint dict_get (V : Type) (d : list (char * V)) (k : char) : option V :=
  match d with
  | [] => None
  | (k', v) :: d' => if N.eqb k' k then Some v else dict_get d' k
  end.

(** [k in d] *)
Definition dict_contains (V : Type) (d : list (char * V)) (k : char) : bool :=
  match dict_get d k with Some _ => true | None => false end.

Definition dict_keys (V : Type) (d : list (char * V)) : list char := map fst d.

Import EV_KEY.

Definition LATIN_CHAR_TO_INPUT_EVENTS_DICT : list (char * list InputEvent) :=
  [ (lit "010", _press_and_release KEY_ENTER);
    (lit "009", _press_and_release KEY_TAB);
    (lit " ",   _press_and_release KEY_SPACE);
    (lit "!",   _shift_press_and_release KEY_1);
    (lit "034", _shift_press_and_release KEY_APOSTROPHE);
    (lit "#",   _shift_press_and_release KEY_3);
    (lit "$",   _shift_press_and_release KEY_4);
    (lit "%",   _shift_press_and_release KEY_5);
    (lit "&",   _shift_press_and_release KEY_7);
    (lit "039", _press_and_release KEY_APOSTROPHE);
    (lit "(",   _shift_press_and_release KEY_9);
    (lit ")",   _shift_press_and_release KEY_0);
    (lit "*",   _shift_press_and_release KEY_8);
    (lit "+",   _shift_press_and_release KEY_0);
    (lit ",",   _shift_press_and_release KEY_EQUAL);
    (lit "-",   _press_and_release KEY_MINUS);
    (lit ".",   _press_and_release KEY_DOT);
    (lit "/",   _press_and_release KEY_SLASH);
    (lit "0",   _press_and_release KEY_0);
    (lit "1",   _press_and_release KEY_1);
    (lit "2",   _press_and_release KEY_2);
    (lit "3",   _press_and_release KEY_3);
    (lit "4",   _press_and_release KEY_4);
    (lit "5",   _press_and_release KEY_5);
    (lit "6",   _press_and_release KEY_6);
    (lit "7",   _press_and_release KEY_7);
    (lit "8",   _press_and_release KEY_8);
    (lit "9",   _press_and_release KEY_9);
    (lit ":",   _shift_press_and_release KEY_SEMICOLON);
    (lit ";",   _press_and_release KEY_SEMICOLON);
    (lit "<",   _shift_press_and_release KEY_COMMA);
    (lit "=",   _press_and_release KEY_EQUAL);
    (lit ">",   _shift_press_and_release KEY_DOT);
    (lit "?",   _shift_press_and_release KEY_SLASH);
    (lit "@",   _shift_press_and_release KEY_2);
    (lit "A",   _shift_press_and_release KEY_A);
    (lit "B",   _shift_press_and_release KEY_B);
    (lit "C",   _shift_press_and_release KEY_C);
    (lit "D",   _shift_press_and_release KEY_D);
    (lit "E",   _shift_press_and_release KEY_E);
    (lit "F",   _shift_press_and_release KEY_F);
    (lit "G",   _shift_press_and_release KEY_G);
    (lit "H",   _shift_press_and_release KEY_H);
    (lit "I",   _shift_press_and_release KEY_I);
    (lit "J",   _shift_press_and_release KEY_J);
    (lit "K",   _shift_press_and_release KEY_K);
    (lit "L",   _shift_press_and_release KEY_L);
    (lit "M",   _shift_press_and_release KEY_M);
    (lit "N",   _shift_press_and_release KEY_N);
    (lit "O",   _shift_press_and_release KEY_O);
    (lit "P",   _shift_press_and_release KEY_P);
    (lit "Q",   _shift_press_and_release KEY_Q);
    (lit "R",   _shift_press_and_release KEY_R);
    (lit "S",   _shift_press_and_release KEY_S);
    (lit "T",   _shift_press_and_release KEY_T);
    (lit "U",   _shift_press_and_release KEY_U);
    (lit "V",   _shift_press_and_release KEY_V);
    (lit "W",   _shift_press_and_release KEY_W);
    (lit "X",   _shift_press_and_release KEY_X);
    (lit "Y",   _shift_press_and_release KEY_Y);
    (lit "Z",   _shift_press_and_release KEY_Z);
    (lit "[",   _press_and_release KEY_LEFTBRACE);
    (lit "092", _press_and_release KEY_BACKSLASH);
    (lit "]",   _press_and_release KEY_RIGHTBRACE);
    (lit "^",   _shift_press_and_release KEY_6);
    (lit "_",   _shift_press_and_release KEY_MINUS);
    (lit "`",   _press_and_release KEY_GRAVE);
    (lit "a",   _press_and_release KEY_A);
    (lit "b",   _press_and_release KEY_B);
    (lit "c",   _press_and_release KEY_C);
    (lit "d",   _press_and_release KEY_D);
    (lit "e",   _press_and_release KEY_E);
    (lit "f",   _press_and_release KEY_F);
    (lit "g",   _press_and_release KEY_G);
    (lit "h",   _press_and_release KEY_H);
    (lit "i",   _press_and_release KEY_I);
    (lit "j",   _press_and_release KEY_J);
    (lit "k",   _press_and_release KEY_K);
    (lit "l",   _press_and_release KEY_L);
    (lit "m",   _press_and_release KEY_M);
    (lit "n",   _press_and_release KEY_N);
    (lit "o",   _press_and_release KEY_O);
    (lit "p",   _press_and_release KEY_P);
    (lit "q",   _press_and_release KEY_Q);
    (lit "r",   _press_and_release KEY_R);
    (lit "s",   _press_and_release KEY_S);
    (lit "t",   _press_and_release KEY_T);
    (lit "u",   _press_and_release KEY_U);
    (lit "v",   _press_and_release KEY_V);
    (lit "w",   _press_and_release KEY_W);
    (lit "x",   _press_and_release KEY_X);
    (lit "y",   _press_and_release KEY_Y);
    (lit "z",   _press_and_release KEY_Z);
    (lit "{",   _shift_press_and_release KEY_LEFTBRACE);
    (lit "|",   _shift_press_and_release KEY_BACKSLASH);
    (lit "}",   _shift_press_and_release KEY_RIGHTBRACE);
    (lit "~",   _shift_press_and_release KEY_GRAVE) ].

(** ** Encoding a character *)

(** [map f xs] where [f] may run out of fuel. *)
Fixpoint map_opt (A B : Type) (f : A -> option B) (xs : list A) : option (list B) :=
  match xs with
  | [] => Some []
  | x :: xs' =>
      match f x with
      | None => None
      | Some y =>
          match map_opt f xs' with
          | None => None
          | Some ys => Some (y :: ys)
          end
      end
  end.

(** The body of [_char_to_unicode_sequence], with the function it maps over
    the digits as a parameter: [chain.from_iterable(chain([INIT],
    map(_char_to_input_events, '%x' % ord(char)), [END]))]. *)
Definition _char_to_unicode_sequence_with
    (_char_to_input_events : char -> option (list InputEvent)) (c : char)
  : option (list InputEvent) :=
  match map_opt _char_to_input_events (format_x (ord c)) with
  | None => None
  | Some parts =>
      Some (concat ([UNICODE_INPUT_INIT_EVENT_SEQUENCE]
                    ++ parts
                    ++ [UNICODE_INPUT_END_EVENT_SEQUENCE]))
  end.

(** [None] is an exhausted fuel, nothing else. *)
Fixpoint _char_to_input_events (fuel : nat) (c : char) : option (list InputEvent) :=
  match fuel with
  | O => None
  | S fuel' =>
      if dict_contains LATIN_CHAR_TO_INPUT_EVENTS_DICT c
      then dict_get LATIN_CHAR_TO_INPUT_EVENTS_DICT c
      else _char_to_unicode_sequence_with (_char_to_input_events fuel') c
  end.

Definition _char_to_unicode_sequence (fuel : nat) (c : char) : option (list InputEvent) :=
  _char_to_unicode_sequence_with (_char_to_input_events fuel) c.

(** ** Python exceptions *)

(** An exception object: its class, whether the class derives from
    [Exception] (what [except Exception] tests), and [str(e)]. *)
Record PyExc : Set := mkPyExc {
  exc_class : string;
  exc_is_Exception : bool;
  exc_str : string
}.

(** [NotImplementedError()], a subclass of [RuntimeError]. *)
Definition NotImplementedError : PyExc := mkPyExc "NotImplementedError" true "".

(** [KeyboardInterrupt()] derives from [BaseException] only. *)
Definition KeyboardInterrupt : PyExc := mkPyExc "KeyboardInterrupt" false "".

Definition OSError (msg : string) : PyExc := mkPyExc "OSError" true msg.

Inductive result (A : Type) : Type :=
| Return (a : A)
| Raise (e : PyExc).

Arguments Return {A} a.
Arguments Raise {A} e.

(** ** The libevdev emulation backend *)

(** The uinput device, seen from the program: for each call of
    [send_events], oldest first, the events that the call has written, all
    the events of its batch when it returned, and the events before the
    failing write when it raised. *)
Definition Device : Set := list (list InputEvent).

Section Emulation.

(** The environment: whether the write of one event fails, given the
    batches of the earlier calls, the events this call has written so far,
    and the event. *)
Variable write_fails : Device -> list InputEvent -> InputEvent -> option PyExc.

(** The loop of [Device.send_events] of python-libevdev,
    [for e in events: self._uinput.write_event(...)]: the events are
    written one by one, and a write that raises leaves the events before it
    written.  The value is the outcome and the events written. *)
Fixpoint write_events (dev : Device) (written events : list InputEvent)
  : result unit * list InputEvent :=
  match events with
  | [] => (Return tt, written)
  | e :: events' =>
      match write_fails dev written e with
      | Some exn => (Raise exn, written)
      | None => write_events dev (written ++ [e]) events'
      end
  end.

(** [self._evdev.send_events(batch)] *)
Definition send_events (batch : list InputEvent) (dev : Device) : result unit * Device :=
  let (r, written) := write_events dev [] batch in (r, dev ++ [written]).

(** [_send_events]: [self._evdev.send_events(list(events))]; the iterable is
    the list it yields. *)
Definition _send_events (events : list InputEvent) (dev : Device) : result unit * Device :=
  send_events events dev.

(** [len(range(count))] *)
Definition range_len (count : Z) : nat := Z.to_nat count.

(** [for _ in range(n): body], left by the first exception. *)
Fixpoint for_range (n : nat) (body : Device -> result unit * Device) (dev : Device)
  : result unit * Device :=
  match n with
  | O => (Return tt, dev)
  | S n' =>
      match body dev with
      | (Return _, dev') => for_range n' body dev'
      | (Raise e, dev') => (Raise e, dev')
      end
  end.

Definition send_backspaces (count : Z) (dev : Device) : result unit * Device :=
  for_range (range_len count)
    (_send_events [ BACKSPACE_PRESS; SYN_REPORT; BACKSPACE_RELEASE; SYN_REPORT ])
    dev.

(** The batch of one iteration, for the statements below. *)
Definition backspace_group : list InputEvent :=
  [ BACKSPACE_PRESS; SYN_REPORT; BACKSPACE_RELEASE; SYN_REPORT ].

(** [None] is an exhausted fuel of the encoding. *)
Definition send_string (fuel : nat) (string : str) (dev : Device)
  : option (result unit * Device) :=
  match map_opt (_char_to_input_events fuel) string with
  | None => None
  | Some char_event_sequences =>
      Some (_send_events (concat char_event_sequences) dev)
  end.

End Emulation.

(** ** The facades of keyboardcontrol.py *)

(** What a facade constructor does to the outside, in order. *)
Inductive Effect : Set :=
| Call_ev_kc
| Call_x11_kc
| Call_ev_ke
| Call_x11_ke
| Log_warning (msg : string).

Definition Trace : Set := list Effect.

(** A computation that reads and extends the trace and returns or raises. *)
Definition M (A : Type) : Type := Trace -> result A * Trace.

Definition ret (A : Type) (a : A) : M A := fun tr => (Return a, tr).

Definition bind (A B : Type) (m : M A) (f : A -> M B) : M B :=
  fun tr =>
    match m tr with
    | (Return a, tr') => f a tr'
    | (Raise e, tr') => (Raise e, tr')
    end.

Definition raise {A : Type} (e : PyExc) : M A := fun tr => (Raise e, tr).

Definition emit (ef : Effect) : M unit := fun tr => (Return tt, tr ++ [ef]).

(** [try: body  except Exception as e: handler(e)] *)
Definition try_except_Exception (A : Type) (body : M A) (handler : PyExc -> M A) : M A :=
  fun tr =>
    match body tr with
    | (Return a, tr') => (Return a, tr')
    | (Raise e, tr') =>
        if exc_is_Exception e then handler e tr' else (Raise e, tr')
    end.

Notation "x <- m ;; k" := (bind m (fun x => k))
  (at level 61, m at next level, right associativity).
Notation "m ;;; k" := (bind m (fun _ => k))
  (at level 61, right associativity).

(** [log.warning(msg)] *)
Definition log_warning (msg : string) : M unit := emit (Log_warning msg).

(** The backend that a facade holds in [_delegate]. *)
Inductive Delegate (Ev X11 : Type) : Type :=
| Libevdev (o : Ev)
| Xlib (o : X11).

Arguments Libevdev {Ev X11} o.
Arguments Xlib {Ev X11} o.

(** The libevdev capture object; its constructor never returns one. *)
Inductive EvCapture : Set := mkEvCapture.

(** [keyboardcontrol_libevdev.KeyboardCapture.__init__] *)
Definition ev_kc : M EvCapture :=
  emit Call_ev_kc ;;; raise NotImplementedError.

Section Facade.

(** The X11 backend is another module of the package; its objects and the
    outcomes of its constructors are taken as given. *)
Variables X11Capture X11Emulation : Type.
Variable x11_kc_outcome : Trace -> result X11Capture.
Variable x11_ke_outcome : Trace -> result X11Emulation.

(** libevdev builds the uinput device ([Device()], [enable],
    [create_uinput_device]); the outcome is the environment's. *)
Variable create_uinput_device : Trace -> result Device.

Definition x11_kc : M X11Capture :=
  fun tr => (x11_kc_outcome tr, tr ++ [Call_x11_kc]).

Definition x11_ke : M X11Emulation :=
  fun tr => (x11_ke_outcome tr, tr ++ [Call_x11_ke]).

(** [keyboardcontrol_libevdev.KeyboardEmulation.__init__] *)
Definition ev_ke : M Device :=
  fun tr => (create_uinput_device tr, tr ++ [Call_ev_ke]).

(** [KeyboardCapture.__init__] of the facade; the value is [self._delegate]. *)
Definition KeyboardCapture_init : M (Delegate EvCapture X11Capture) :=
  try_except_Exception
    (d <- ev_kc ;; ret (Libevdev d))
    (fun e =>
       log_warning ("Keyboard capture falling back to X11 as libevdev backend failed: "
                    ++ exc_str e) ;;;
       d <- x11_kc ;; ret (Xlib d)).

(** [KeyboardEmulation.__init__] of the facade. *)
Definition KeyboardEmulation_init : M (Delegate Device X11Emulation) :=
  try_except_Exception
    (d <- ev_ke ;; ret (Libevdev d))
    (fun e =>
       log_warning ("Keyboard emulation falling back to X11 as libevdev backend failed: "
                    ++ exc_str e) ;;;
       d <- x11_ke ;; ret (Xlib d)).

End Facade.

(** ** Properties of event sequences *)

Definition press (k : EV_KEY.t) : InputEvent := mkInputEvent k 1.
Definition release (k : EV_KEY.t) : InputEvent := mkInputEvent k 0.

Definition count_events (e : InputEvent) (evs : list InputEvent) : nat :=
  List.length (filter (InputEvent_eqb e) evs).

(** As many presses as releases, for each key. *)
Definition balanced (evs : list InputEvent) : Prop :=
  forall k, count_events (press k) evs = count_events (release k) evs.

Definition ends_with_marker (evs : list InputEvent) : Prop :=
  exists front, evs = front ++ [SYN_REPORT].

(** After each press of a key comes a release of that key, with no other
    press of it in between. *)
Definition no_self_overlap (evs : list InputEvent) : Prop :=
  forall k before after,
    evs = before ++ press k :: after ->
    exists between rest,
      after = between ++ release k :: rest /\ ~ In (press k) between.

(** The state of key [k] along a sequence: [down] tells whether it is held.
    [None] when a held key is pressed or a key that is up is released. *)
Fixpoint key_run (k : EV_KEY.t) (down : bool) (evs : list InputEvent) : option bool :=
  match evs with
  | [] => Some down
  | e :: evs' =>
      if InputEvent_eqb e (press k) then
        if down then None else key_run k true evs'
      else if InputEvent_eqb e (release k) then
        if down then key_run k false evs' else None
      else key_run k down evs'
  end.

(** The characters the hexadecimal format can produce. *)
Definition hex_digit_chars : str := str_of_string "0123456789abcdef".

(** The number a string of hexadecimal digits writes, [int(s, 16)];
    [None] when a character is no digit. *)
Definition hex_digit_value (c : char) : option N :=
  if (48 <=? c)%N && (c <=? 57)%N then Some (c - 48)%N
  else if (97 <=? c)%N && (c <=? 102)%N then Some (c - 87)%N
  else None.

Fixpoint int_of_hex_from (acc : N) (s : str) : option N :=
  match s with
  | [] => Some acc
  | c :: s' =>
      match hex_digit_value c with
      | None => None
      | Some d => int_of_hex_from (16 * acc + d)%N s'
      end
  end.

Definition int_of_hex (s : str) : option N :=
  match s with
  | [] => None
  | _ => int_of_hex_from 0%N s
  end.

Definition euro : char := 0x20ac%N.

(** The digits of a hexadecimal numeral of the library, as characters. *)
Definition chars_of_uint (d : uint) : str :=
  str_of_string (NilEmpty.string_of_uint d).

(** The keys of the hexadecimal digits: no modifier among them. *)
Definition digit_keys : list EV_KEY.t :=
  [ KEY_0; KEY_1; KEY_2; KEY_3; KEY_4; KEY_5; KEY_6; KEY_7; KEY_8; KEY_9;
    KEY_A; KEY_B; KEY_C; KEY_D; KEY_E; KEY_F ].

Fixpoint events_eqb (a b : list InputEvent) : bool :=
  match a, b with
  | [], [] => true
  | x :: a', y :: b' => InputEvent_eqb x y && events_eqb a' b'
  | _, _ => false
  end.

(** The two keys the init sequence leaves held. *)
Definition is_modifier (k : EV_KEY.t) : bool :=
  EV_KEY.t_beq k KEY_LEFTCTRL || EV_KEY.t_beq k KEY_LEFTSHIFT.

(** The check that a sequence leaves every key up, starting with every key
    up, and never presses a held key nor releases a key that is up. *)
Definition keys_ok (evs : list InputEvent) : bool :=
  forallb (fun k => match key_run k false evs with
                    | Some false => true
                    | _ => false
                    end) EV_KEY.all.

(** The check that the last event of a sequence is the marker. *)
Definition last_is_marker (evs : list InputEvent) : bool :=
  match evs with
  | [] => false
  | _ => InputEvent_eqb (last evs BACKSPACE_PRESS) SYN_REPORT
  end.

(** Calls of a constructor of the libevdev backend, of the X11 backend, and
    warnings, in a trace. *)
Definition is_libevdev_call (ef : Effect) : bool :=
  match ef with Call_ev_kc | Call_ev_ke => true | _ => false end.

Definition is_x11_call (ef : Effect) : bool :=
  match ef with Call_x11_kc | Call_x11_ke => true | _ => false end.

Definition is_warning (ef : Effect) : bool :=
  match ef with Log_warning _ => true | _ => false end.

Definition count_effects (p : Effect -> bool) (tr : Trace) : nat :=
  List.length (filter p tr).

(** ** The US layout, for comparison *)

(** The US keyboard layout that the specification names: each key with the
    character it types alone and, where it has one, the character it types
    with shift.  This list is written from the layout, not from the table
    above; the table is compared with it. *)
Local Open Scope char_scope.

Definition US_LAYOUT : list (EV_KEY.t * ascii * option ascii) :=
  [ (KEY_GRAVE, "`", Some "~");
    (KEY_1, "1", Some "!"); (KEY_2, "2", Some "@"); (KEY_3, "3", Some "#");
    (KEY_4, "4", Some "$"); (KEY_5, "5", Some "%"); (KEY_6, "6", Some "^");
    (KEY_7, "7", Some "&"); (KEY_8, "8", Some "*"); (KEY_9, "9", Some "(");
    (KEY_0, "0", Some ")");
    (KEY_MINUS, "-", Some "_"); (KEY_EQUAL, "=", Some "+");
    (KEY_Q, "q", Some "Q"); (KEY_W, "w", Some "W"); (KEY_E, "e", Some "E");
    (KEY_R, "r", Some "R"); (KEY_T, "t", Some "T"); (KEY_Y, "y", Some "Y");
    (KEY_U, "u", Some "U"); (KEY_I, "i", Some "I"); (KEY_O, "o", Some "O");
    (KEY_P, "p", Some "P");
    (KEY_LEFTBRACE, "[", Some "{"); (KEY_RIGHTBRACE, "]", Some "}");
    (KEY_BACKSLASH, "092", Some "|");
    (KEY_A, "a", Some "A"); (KEY_S, "s", Some "S"); (KEY_D, "d", Some "D");
    (KEY_F, "f", Some "F"); (KEY_G, "g", Some "G"); (KEY_H, "h", Some "H");
    (KEY_J, "j", Some "J"); (KEY_K, "k", Some "K"); (KEY_L, "l", Some "L");
    (KEY_SEMICOLON, ";", Some ":"); (KEY_APOSTROPHE, "039", Some "034");
    (KEY_Z, "z", Some "Z"); (KEY_X, "x", Some "X"); (KEY_C, "c", Some "C");
    (KEY_V, "v", Some "V"); (KEY_B, "b", Some "B"); (KEY_N, "n", Some "N");
    (KEY_M, "m", Some "M");
    (KEY_COMMA, ",", Some "<"); (KEY_DOT, ".", Some ">");
    (KEY_SLASH, "/", Some "?");
    (KEY_SPACE, " ", None); (KEY_TAB, "009", None); (KEY_ENTER, "010", None) ].

Local Close Scope char_scope.

(** The sequence that types [c] on a layout: the key of [c] alone, or with
    shift held when [c] is the shifted character of its key. *)
Fixpoint layout_events (layout : list (EV_KEY.t * ascii * option ascii)) (c : char)
  : option (list InputEvent) :=
  match layout with
  | [] => None
  | (k, plain, shifted) :: rest =>
      if N.eqb (lit plain) c then Some (_press_and_release k)
      else
        match shifted with
        | Some s =>
            if N.eqb (lit s) c then Some (_shift_press_and_release k)
            else layout_events rest c
        | None => layout_events rest c
        end
  end.

Definition opt_events_eqb (a b : option (list InputEvent)) : bool :=
  match a, b with
  | Some x, Some y => events_eqb x y
  | None, None => true
  | _, _ => false
  end.

(** The check that an entry of the table is what the US layout gives for
    its character. *)
Definition entry_matches_layout (kv : char * list InputEvent) : bool :=
  opt_events_eqb (Some (snd kv)) (layout_events US_LAYOUT (fst kv)).

(** The key of which [c] is the shifted character on a layout. *)
Fixpoint shifted_key_of (layout : list (EV_KEY.t * ascii * option ascii)) (c : char)
  : option EV_KEY.t :=
  match layout with
  | [] => None
  | (k, _, Some s) :: rest =>
      if N.eqb (lit s) c then Some k else shifted_key_of rest c
  | (_, _, None) :: rest => shifted_key_of rest c
  end.

(** The check on a key of the layout: its shifted character, unless it is
    the plus sign, has the table entry [_shift_press_and_release] of this
    key. *)
Definition layout_shift_entry_ok (entry : EV_KEY.t * ascii * option ascii) : bool :=
  match entry with
  | (k, _, Some s) =>
      N.eqb (lit s) (lit "+")
      || opt_events_eqb (dict_get LATIN_CHAR_TO_INPUT_EVENTS_DICT (lit s))
                        (Some (_shift_press_and_release k))
  | (_, _, None) => true
  end.

(** * The rest of the two modules *)

(** ** KEYNAME_TO_CHAR *)

Local Open Scope string_scope.

(** The dict from key names to characters, in the order of the source. *)
Definition KEYNAME_TO_CHAR : list (string * char) :=
  [ ("ampersand",    lit "&");
    ("apostrophe",   lit "039");
    ("asciicircum",  lit "^");
    ("asciitilde",   lit "~");
    ("asterisk",     lit "*");
    ("at",           lit "@");
    ("backslash",    lit "092");
    ("bar",          lit "|");
    ("braceleft",    lit "{");
    ("braceright",   lit "}");
    ("bracketleft",  lit "[");
    ("bracketright", lit "]");
    ("colon",        lit ":");
    ("comma",        lit ",");
    ("dollar",       lit "$");
    ("equal",        lit "=");
    ("exclam",       lit "!");
    ("grave",        lit "`");
    ("greater",      lit ">");
    ("less",         lit "<");
    ("minus",        lit "-");
    ("numbersign",   lit "#");
    ("parenleft",    lit "(");
    ("parenright",   lit ")");
    ("percent",      lit "%");
    ("period",       lit ".");
    ("plus",         lit "+");
    ("question",     lit "?");
    ("quotedbl",     lit "034");
    ("quoteleft",    lit "`");
    ("quoteright",   lit "039");
    ("return",       lit "013");
    ("semicolon",    lit ";");
    ("slash",        lit "/");
    ("space",        lit " ");
    ("tab",          lit "009");
    ("underscore",   lit "_") ].

Local Close Scope string_scope.

(** [d.get(name)] for a dict with string keys. *)
Fixpoint keyname_get (d : list (string * char)) (name : string) : option char :=
  match d with
  | [] => None
  | (name', c) :: d' =>
      if String.eqb name' name then Some c else keyname_get d' name
  end.

(** ** The methods of the libevdev classes that are not implemented *)

(** [KeyboardEmulation.send_key_combination] *)
Definition send_key_combination (combo : str) (dev : Device) : result unit * Device :=
  (Raise NotImplementedError, dev).

(** [KeyboardCapture.start], [cancel] and [suppress] of libevdev. *)
Definition ev_kc_start (o : EvCapture) : result unit * EvCapture :=
  (Raise NotImplementedError, o).

Definition ev_kc_cancel (o : EvCapture) : result unit * EvCapture :=
  (Raise NotImplementedError, o).

Definition ev_kc_suppress (suppressed_keys : list str) (o : EvCapture)
  : result unit * EvCapture :=
  (Raise NotImplementedError, o).

(** ** A client of the libevdev emulation *)

(** One call of a method of the emulation. *)
Inductive EmulationCall : Set :=
| Send_backspaces (count : Z)
| Send_string (string : str)
| Send_key_combination (combo : str).

Section EmulationClient.

Variable write_fails : Device -> list InputEvent -> InputEvent -> option PyExc.
Variable fuel : nat.

(** One call on the libevdev object; [None] is an exhausted fuel. *)
Definition ev_ke_call (call : EmulationCall) (dev : Device)
  : option (result unit * Device) :=
  match call with
  | Send_backspaces count => Some (send_backspaces write_fails count dev)
  | Send_string string => send_string write_fails fuel string dev
  | Send_key_combination combo => Some (send_key_combination combo dev)
  end.

(** A client that makes the calls in order and goes on after an exception;
    the value is the outcomes of the calls and the device at the end. *)
Fixpoint ev_ke_calls (calls : list EmulationCall) (dev : Device)
  : option (list (result unit) * Device) :=
  match calls with
  | [] => Some ([], dev)
  | call :: calls' =>
      match ev_ke_call call dev with
      | None => None
      | Some (r, dev') =>
          match ev_ke_calls calls' dev' with
          | None => None
          | Some (rs, dev'') => Some (r :: rs, dev'')
          end
      end
  end.

End EmulationClient.

(** ** The methods of the facades *)

Section FacadeMethods.

Variables X11Capture X11Emulation : Type.

(** The methods of the X11 classes, taken as given. *)
Variable x11_start : X11Capture -> result unit * X11Capture.
Variable x11_cancel : X11Capture -> result unit * X11Capture.
Variable x11_suppress : list str -> X11Capture -> result unit * X11Capture.
Variable x11_send_backspaces : Z -> X11Emulation -> result unit * X11Emulation.
Variable x11_send_string : str -> X11Emulation -> result unit * X11Emulation.
Variable x11_send_key_combination : str -> X11Emulation -> result unit * X11Emulation.

Variable write_fails : Device -> list InputEvent -> InputEvent -> option PyExc.
Variable fuel : nat.

(** [self._delegate.method(...)]: the method of the class of the delegate,
    on the delegate. *)
Definition dispatch (Ev X11 : Type)
    (ev_method : Ev -> result unit * Ev) (x11_method : X11 -> result unit * X11)
    (delegate : Delegate Ev X11) : result unit * Delegate Ev X11 :=
  match delegate with
  | Libevdev o => let (r, o') := ev_method o in (r, Libevdev o')
  | Xlib o => let (r, o') := x11_method o in (r, Xlib o')
  end.

Definition KeyboardCapture_start (delegate : Delegate EvCapture X11Capture) :=
  dispatch ev_kc_start x11_start delegate.

Definition KeyboardCapture_cancel (delegate : Delegate EvCapture X11Capture) :=
  dispatch ev_kc_cancel x11_cancel delegate.

Definition KeyboardCapture_suppress (suppressed_keys : list str)
    (delegate : Delegate EvCapture X11Capture) :=
  dispatch (ev_kc_suppress suppressed_keys) (x11_suppress suppressed_keys) delegate.

Definition KeyboardEmulation_send_backspaces (count : Z)
    (delegate : Delegate Device X11Emulation) :=
  dispatch (send_backspaces write_fails count) (x11_send_backspaces count) delegate.

(** [None] is an exhausted fuel of the encoding. *)
Definition KeyboardEmulation_send_string (string : str)
    (delegate : Delegate Device X11Emulation)
  : option (result unit * Delegate Device X11Emulation) :=
  match delegate with
  | Libevdev dev =>
      match send_string write_fails fuel string dev with
      | None => None
      | Some (r, dev') => Some (r, Libevdev dev')
      end
  | Xlib o => let (r, o') := x11_send_string string o in Some (r, Xlib o')
  end.

Definition KeyboardEmulation_send_key_combination (combo : str)
    (delegate : Delegate Device X11Emulation) :=
  dispatch (send_key_combination combo) (x11_send_key_combination combo) delegate.

(** One call on the emulation facade, and a client that makes calls in
    order, going on after an exception. *)
Definition KeyboardEmulation_call (call : EmulationCall)
    (delegate : Delegate Device X11Emulation)
  : option (result unit * Delegate Device X11Emulation) :=
  match call with
  | Send_backspaces count => Some (KeyboardEmulation_send_backspaces count delegate)
  | Send_string string => KeyboardEmulation_send_string string delegate
  | Send_key_combination combo =>
      Some (KeyboardEmulation_send_key_combination combo delegate)
  end.

Fixpoint KeyboardEmulation_calls (calls : list EmulationCall)
    (delegate : Delegate Device X11Emulation)
  : option (list (result unit) * Delegate Device X11Emulation) :=
  match calls with
  | [] => Some ([], delegate)
  | call :: calls' =>
      match KeyboardEmulation_call call delegate with
      | None => None
      | Some (r, delegate') =>
          match KeyboardEmulation_calls calls' delegate' with
          | None => None
          | Some (rs, delegate'') => Some (r :: rs, delegate'')
          end
      end
  end.

End FacadeMethods.

(** Which backend a delegate is of. *)
Definition is_libevdev (Ev X11 : Type) (delegate : Delegate Ev X11) : bool :=
  match delegate with Libevdev _ => true | Xlib _ => false end.

(** ** Checks on the table, for the proofs *)

(** The keys of the table as the source lists them: newline, tab, and the
    printable ASCII characters from the space to the tilde. *)
Definition LATIN_expected_keys : list char :=
  [10%N; 9%N] ++ map N.of_nat (seq 32 95).

Definition is_plus_paren (a b : char) : bool :=
  (N.eqb a (lit "+") && N.eqb b (lit ")"))
  || (N.eqb a (lit ")") && N.eqb b (lit "+")).

(** The check that two entries with the same sequence are the same entry,
    or the entries of the plus sign and of the closing parenthesis. *)
Definition entries_distinct (kv1 kv2 : char * list InputEvent) : bool :=
  implb (events_eqb (snd kv1) (snd kv2))
        (N.eqb (fst kv1) (fst kv2) || is_plus_paren (fst kv1) (fst kv2)).

(** The check that an entry has four or six events and does not open with
    the press of control. *)
Definition entry_size_ok (evs : list InputEvent) : bool :=
  (Nat.eqb (List.length evs) 4 || Nat.eqb (List.length evs) 6)
  && match evs with
     | e :: _ => negb (InputEvent_eqb e (mkInputEvent KEY_LEFTCTRL 1))
     | [] => false
     end.

(** The six digits of a number below 16^6, zeros in front included. *)
Definition hex_digit_char (v : N) : char :=
  if (v <? 10)%N then (48 + v)%N else (87 + v)%N.

Definition hex6 (n : N) : str :=
  map hex_digit_char
      [ (n / 16 / 16 / 16 / 16 / 16) mod 16; (n / 16 / 16 / 16 / 16) mod 16;
        (n / 16 / 16 / 16) mod 16; (n / 16 / 16) mod 16; (n / 16) mod 16;
        n mod 16 ]%N.

(** An event that is the press of a key other than control and shift. *)
Definition is_plain_press (e : InputEvent) : bool :=
  match e with
  | mkInputEvent (Key k) v => Z.eqb v 1 && negb (is_modifier k)
  | _ => false
  end.

(** An event of the control key or of the shift key. *)
Definition is_modifier_event (e : InputEvent) : bool :=
  match code e with
  | Key k => is_modifier k
  | Syn _ => false
  end.

(** The check that a lower-case letter is typed as a key alone and its
    upper-case letter as the same key with shift. *)
Definition letter_pair_ok (c : char) : bool :=
  match dict_get LATIN_CHAR_TO_INPUT_EVENTS_DICT c with
  | Some ((mkInputEvent (Key k) _ :: _) as lower) =>
      negb (EV_KEY.t_beq k KEY_LEFTSHIFT)
      && events_eqb lower (_press_and_release k)
      && opt_events_eqb (dict_get LATIN_CHAR_TO_INPUT_EVENTS_DICT (c - 32)%N)
                        (Some (_shift_press_and_release k))
  | _ => false
  end.

(** The check on an entry of [KEYNAME_TO_CHAR]: the character is ASCII,
    and it is in the direct table unless the name is return, whose
    character is the carriage return, which is not in the table. *)
Definition keyname_entry_ok (nc : string * char) : bool :=
  (snd nc <? 128)%N
  && if String.eqb (fst nc) "return"
     then N.eqb (snd nc) 13
          && negb (dict_contains LATIN_CHAR_TO_INPUT_EVENTS_DICT (snd nc))
     else dict_contains LATIN_CHAR_TO_INPUT_EVENTS_DICT (snd nc).

(** The outcome of a call when no write fails: only
    [send_key_combination] raises. *)
Definition call_outcome (call : EmulationCall) : result unit :=
  match call with
  | Send_key_combination _ => Raise NotImplementedError
  | _ => Return tt
  end.

(** * Proofs *)

Unset Implicit Arguments.

(** ** Equality of events *)

Lemma EventCode_eqb_eq (a b : EventCode) : EventCode_eqb a b = true <-> a = b.
Proof.
  destruct a as [k|[]], b as [k'|[]]; simpl; split; intro H;
    try discriminate; try reflexivity.
  - f_equal. now apply EV_KEY.internal_t_dec_bl.
  - injection H as ->. now apply EV_KEY.internal_t_dec_lb.
Qed.

Lemma InputEvent_eqb_eq (a b : InputEvent) : InputEvent_eqb a b = true <-> a = b.
Proof.
  destruct a as [ca va], b as [cb vb]; unfold InputEvent_eqb; simpl.
  rewrite andb_true_iff, EventCode_eqb_eq, Z.eqb_eq.
  split.
  - now intros [-> ->].
  - intros H; injection H; auto.
Qed.

Lemma InputEvent_eqb_refl (a : InputEvent) : InputEvent_eqb a a = true.
Proof. now apply InputEvent_eqb_eq. Qed.

Lemma InputEvent_eqb_neq (a b : InputEvent) : InputEvent_eqb a b = false <-> a <> b.
Proof.
  rewrite <- InputEvent_eqb_eq. destruct (InputEvent_eqb a b); split; congruence.
Qed.

Lemma key_eq_dec (k k' : EV_KEY.t) : {k = k'} + {k <> k'}.
Proof. apply EV_KEY.t_eq_dec. Qed.

Lemma all_keys_complete (k : EV_KEY.t) : existsb (EV_KEY.t_beq k) EV_KEY.all = true.
Proof. destruct k; reflexivity. Qed.

(** A property checked on every key holds of every key. *)
Lemma forall_keys (P : EV_KEY.t -> bool) :
  forallb P EV_KEY.all = true -> forall k, P k = true.
Proof.
  intros H k. rewrite forallb_forall in H. apply H.
  pose proof (all_keys_complete k) as E.
  apply existsb_exists in E as (k' & Hin & Hk).
  apply EV_KEY.internal_t_dec_bl in Hk. now subst.
Qed.

(** ** The dict *)

Lemma LATIN_keys_NoDup : NoDup (dict_keys LATIN_CHAR_TO_INPUT_EVENTS_DICT).
Proof.
  apply (NoDup_count_occ' N.eq_dec).
  intros x Hin.
  repeat (destruct Hin as [<- | Hin]; [ vm_compute; reflexivity | ]).
  destruct Hin.
Qed.

Lemma dict_get_In (V : Type) (d : list (char * V)) (k : char) (v : V) :
  dict_get d k = Some v -> In (k, v) d.
Proof.
  induction d as [|[k' v'] d IH]; simpl; [discriminate|].
  destruct (N.eqb_spec k' k) as [->|_].
  - intros [= ->]. now left.
  - intros H. right. now apply IH.
Qed.

Lemma In_dict_get (V : Type) (d : list (char * V)) (k : char) (v : V) :
  NoDup (dict_keys d) -> In (k, v) d -> dict_get d k = Some v.
Proof.
  induction d as [|[k' v'] d IH]; simpl; [intros _ []|].
  intros Hnd [[= -> ->]|Hin].
  - now rewrite N.eqb_refl.
  - inversion Hnd as [|? ? Hnotin Hnd']; subst.
    destruct (N.eqb_spec k' k) as [->|_].
    + exfalso. apply Hnotin. unfold dict_keys.
      change k with (fst (k, v)). now apply in_map.
    + now apply IH.
Qed.

(** In the table a lookup is membership: no key comes twice. *)
Lemma LATIN_lookup_is_membership (c : char) (evs : list InputEvent) :
  dict_get LATIN_CHAR_TO_INPUT_EVENTS_DICT c = Some evs
  <-> In (c, evs) LATIN_CHAR_TO_INPUT_EVENTS_DICT.
Proof.
  split.
  - apply dict_get_In.
  - apply In_dict_get, LATIN_keys_NoDup.
Qed.

Lemma dict_contains_true (V : Type) (d : list (char * V)) (k : char) :
  dict_contains d k = true <-> exists v, dict_get d k = Some v.
Proof.
  unfold dict_contains. destruct (dict_get d k) as [v|]; split.
  - eauto.
  - reflexivity.
  - discriminate.
  - intros [v [=]].
Qed.

Lemma dict_contains_false (V : Type) (d : list (char * V)) (k : char) :
  dict_contains d k = false <-> dict_get d k = None.
Proof.
  unfold dict_contains. destruct (dict_get d k); split; congruence.
Qed.

(** A property checked on every entry holds of every lookup. *)
Lemma dict_forall (V : Type) (P : char -> V -> bool) (d : list (char * V)) :
  forallb (fun kv => P (fst kv) (snd kv)) d = true ->
  forall k v, dict_get d k = Some v -> P k v = true.
Proof.
  intros H k v Hget. apply dict_get_In in Hget.
  rewrite forallb_forall in H. exact (H (k, v) Hget).
Qed.

(** ** The hexadecimal format *)

Lemma format_x_chars (n : N) : format_x n = chars_of_uint (N.to_hex_uint n).
Proof. reflexivity. Qed.

Lemma chars_of_uint_length (d : uint) : List.length (chars_of_uint d) = nb_digits d.
Proof.
  unfold chars_of_uint, str_of_string.
  induction d; simpl; try reflexivity; now f_equal.
Qed.

Lemma chars_of_uint_hex (d : uint) :
  Forall (fun c => In c hex_digit_chars) (chars_of_uint d).
Proof.
  unfold chars_of_uint, str_of_string.
  induction d; simpl; constructor; try assumption;
    vm_compute; tauto.
Qed.

(** Reading the digits of a numeral back, with a positive number read so
    far. *)
Lemma int_of_hex_from_pos (d : uint) (p : positive) :
  int_of_hex_from (Npos p) (chars_of_uint d) = Some (Npos (Pos.of_hex_uint_acc d p)).
Proof.
  unfold chars_of_uint, str_of_string.
  revert p; induction d; intro p; simpl; try reflexivity;
    cbn [int_of_hex_from hex_digit_value lit N_of_ascii N_of_digits];
    match goal with
    | |- int_of_hex_from ?a _ = Some (Npos (Pos.of_hex_uint_acc _ ?q)) =>
        replace a with (Npos q) by lia
    end; apply IHd.
Qed.

Lemma int_of_hex_from_zero (d : uint) :
  int_of_hex_from 0%N (chars_of_uint d) = Some (N.of_hex_uint d).
Proof.
  unfold N.of_hex_uint.
  induction d; try exact (int_of_hex_from_pos d _).
  - reflexivity.
  - exact IHd.
Qed.

Lemma chars_of_uint_nonempty (d : uint) : d <> Nil -> chars_of_uint d <> [].
Proof. destruct d; intros H; try discriminate. now elim H. Qed.

Lemma to_hex_uint_nonnil (n : N) : N.to_hex_uint n <> Nil.
Proof.
  rewrite <- (Unsigned.of_to n), Unsigned.to_of. apply unorm_nonnil.
Qed.

(** The format writes the number: reading the digits back gives it. *)
Lemma int_of_hex_format_x (n : N) : int_of_hex (format_x n) = Some n.
Proof.
  rewrite format_x_chars. unfold int_of_hex.
  pose proof (chars_of_uint_nonempty _ (to_hex_uint_nonnil n)) as Hne.
  destruct (chars_of_uint (N.to_hex_uint n)) as [|c s] eqn:E; [now elim Hne|].
  rewrite <- E, int_of_hex_from_zero. f_equal. apply Unsigned.of_to.
Qed.

Lemma hex_digit_value_cases (c : char) (v : N) :
  hex_digit_value c = Some v ->
  In c hex_digit_chars.
Proof.
  unfold hex_digit_value.
  destruct (N.leb_spec 48 c), (N.leb_spec c 57); simpl.
  - intros _.
    assert (c = 48 \/ c = 49 \/ c = 50 \/ c = 51 \/ c = 52 \/ c = 53 \/
            c = 54 \/ c = 55 \/ c = 56 \/ c = 57)%N as Hc by lia.
    repeat (destruct Hc as [-> | Hc]; [vm_compute; tauto|]).
    subst c. vm_compute. tauto.
  - destruct (N.leb_spec 97 c), (N.leb_spec c 102); simpl; try discriminate.
    intros _.
    assert (c = 97 \/ c = 98 \/ c = 99 \/ c = 100 \/ c = 101 \/ c = 102)%N
      as Hc by lia.
    repeat (destruct Hc as [-> | Hc]; [vm_compute; tauto|]).
    subst c. vm_compute. tauto.
  - destruct (N.leb_spec 97 c), (N.leb_spec c 102); simpl; try discriminate.
    lia.
  - destruct (N.leb_spec 97 c), (N.leb_spec c 102); simpl; try discriminate.
    lia.
Qed.

(** Every string of hexadecimal digits is the digits of a numeral. *)
Lemma hex_string_uint (s : str) :
  Forall (fun c => In c hex_digit_chars) s ->
  exists d, chars_of_uint d = s.
Proof.
  induction 1 as [|c s Hc _ [d <-]].
  - now exists Nil.
  - vm_compute in Hc.
    repeat (destruct Hc as [<- | Hc];
            [ first [ now exists (D0 d) | now exists (D1 d) | now exists (D2 d)
                    | now exists (D3 d) | now exists (D4 d) | now exists (D5 d)
                    | now exists (D6 d) | now exists (D7 d) | now exists (D8 d)
                    | now exists (D9 d) | now exists (Da d) | now exists (Db d)
                    | now exists (Dc d) | now exists (Dd d) | now exists (De d)
                    | now exists (Df d) ] | ]).
    destruct Hc.
Qed.

Lemma int_of_hex_from_digits (s : str) (acc v : N) :
  int_of_hex_from acc s = Some v ->
  Forall (fun c => In c hex_digit_chars) s.
Proof.
  revert acc; induction s as [|c s IH]; intros acc; simpl; [constructor|].
  destruct (hex_digit_value c) as [dv|] eqn:E; [|discriminate].
  intros H. constructor.
  - eapply hex_digit_value_cases; eauto.
  - eapply IH; eauto.
Qed.

(** No string of hexadecimal digits that writes [n] is shorter than the
    format of [n]. *)
Lemma format_x_minimal (n : N) (s : str) :
  int_of_hex s = Some n -> List.length (format_x n) <= List.length s.
Proof.
  intros H.
  assert (s <> []) as Hne by (destruct s; [discriminate | congruence]).
  assert (int_of_hex_from 0%N s = Some n) as H0 by (destruct s; [congruence | exact H]).
  destruct (hex_string_uint _ (int_of_hex_from_digits _ _ _ H0)) as [d <-].
  rewrite int_of_hex_from_zero in H0. injection H0 as <-.
  rewrite format_x_chars, Unsigned.to_of, !chars_of_uint_length.
  apply nb_digits_unorm. intros ->. now apply Hne.
Qed.

Lemma format_x_hex (n : N) : Forall (fun c => In c hex_digit_chars) (format_x n).
Proof. rewrite format_x_chars. apply chars_of_uint_hex. Qed.

(** ** Hexadecimal digits in the table *)

Lemma hex_digit_in_table (c : char) :
  In c hex_digit_chars ->
  exists k, In k digit_keys /\
            dict_get LATIN_CHAR_TO_INPUT_EVENTS_DICT c = Some (_press_and_release k).
Proof.
  intros Hc. vm_compute in Hc.
  repeat (destruct Hc as [<- | Hc];
          [ eexists; split; [ | vm_compute; reflexivity ]; vm_compute; tauto | ]).
  destruct Hc.
Qed.

(** ** Mapping a function that needs fuel *)

Lemma map_opt_Forall2 (A B : Type) (f : A -> option B) (xs : list A) (ys : list B) :
  map_opt f xs = Some ys <-> Forall2 (fun x y => f x = Some y) xs ys.
Proof.
  revert ys; induction xs as [|x xs IH]; intros ys; simpl.
  - split.
    + intros [= <-]. constructor.
    + intros H. inversion H. reflexivity.
  - split.
    + destruct (f x) as [y|] eqn:Ef; [|discriminate].
      destruct (map_opt f xs) as [ys'|]; [|discriminate].
      intros [= <-]. constructor; [assumption|]. now apply IH.
    + intros H. inversion H as [|? y ? ys' Hy Hys]; subst.
      rewrite Hy. apply IH in Hys. now rewrite Hys.
Qed.

Lemma map_opt_total (A B : Type) (f : A -> option B) (xs : list A) :
  Forall (fun x => exists y, f x = Some y) xs ->
  exists ys, map_opt f xs = Some ys.
Proof.
  induction 1 as [|x xs [y Hy] _ [ys Hys]]; simpl.
  - now exists [].
  - rewrite Hy, Hys. now exists (y :: ys).
Qed.

Lemma Forall2_impl (A B : Type) (P Q : A -> B -> Prop) (xs : list A) (ys : list B) :
  (forall x y, P x y -> Q x y) -> Forall2 P xs ys -> Forall2 Q xs ys.
Proof. intros HPQ H. induction H; constructor; auto. Qed.

(** ** The two paths of the encoding *)

(** The direct path: a character of the table gets its entry, with any fuel
    but zero. *)
Lemma encode_direct (fuel : nat) (c : char) (evs : list InputEvent) :
  dict_get LATIN_CHAR_TO_INPUT_EVENTS_DICT c = Some evs ->
  _char_to_input_events (S fuel) c = Some evs.
Proof.
  intros H. simpl.
  assert (dict_contains LATIN_CHAR_TO_INPUT_EVENTS_DICT c = true) as ->
    by (apply dict_contains_true; eauto).
  exact H.
Qed.

(** With a fuel of one, only the direct path returns. *)
Lemma encode_fuel_one (c : char) (evs : list InputEvent) :
  _char_to_input_events 1 c = Some evs ->
  dict_get LATIN_CHAR_TO_INPUT_EVENTS_DICT c = Some evs.
Proof.
  simpl.
  destruct (dict_contains LATIN_CHAR_TO_INPUT_EVENTS_DICT c); [trivial|].
  unfold _char_to_unicode_sequence_with.
  pose proof (chars_of_uint_nonempty _ (to_hex_uint_nonnil (ord c))) as Hne.
  rewrite <- format_x_chars in Hne.
  destruct (format_x (ord c)); [now elim Hne | discriminate].
Qed.

Lemma concat_bracket (A : Type) (a b : list A) (parts : list (list A)) :
  concat ([a] ++ parts ++ [b]) = a ++ concat parts ++ b.
Proof.
  simpl. rewrite List.concat_app. simpl. now rewrite List.app_nil_r.
Qed.

(** The digits of the format, each with its table entry. *)
Lemma format_x_direct (n : N) :
  exists parts,
    Forall2 (fun d evs =>
               exists k, In k digit_keys /\ evs = _press_and_release k /\
                         dict_get LATIN_CHAR_TO_INPUT_EVENTS_DICT d = Some evs)
            (format_x n) parts.
Proof.
  pose proof (format_x_hex n) as H.
  induction H as [|d ds Hd _ [parts IH]].
  - exists []. constructor.
  - destruct (hex_digit_in_table _ Hd) as (k & Hk & Hget).
    exists (_press_and_release k :: parts). constructor; eauto.
Qed.

(** The fallback path: a character outside the table, with a fuel of two or
    more. *)
Lemma encode_fallback (fuel : nat) (c : char) :
  dict_contains LATIN_CHAR_TO_INPUT_EVENTS_DICT c = false ->
  exists parts,
    Forall2 (fun d evs =>
               exists k, In k digit_keys /\ evs = _press_and_release k /\
                         dict_get LATIN_CHAR_TO_INPUT_EVENTS_DICT d = Some evs)
            (format_x (ord c)) parts /\
    _char_to_input_events (S (S fuel)) c =
      Some (UNICODE_INPUT_INIT_EVENT_SEQUENCE ++ concat parts
            ++ UNICODE_INPUT_END_EVENT_SEQUENCE).
Proof.
  intros Hc.
  destruct (format_x_direct (ord c)) as [parts Hparts].
  exists parts. split; [assumption|].
  change (_char_to_input_events (S (S fuel)) c)
    with (if dict_contains LATIN_CHAR_TO_INPUT_EVENTS_DICT c
          then dict_get LATIN_CHAR_TO_INPUT_EVENTS_DICT c
          else _char_to_unicode_sequence_with (_char_to_input_events (S fuel)) c).
  rewrite Hc. unfold _char_to_unicode_sequence_with.
  assert (map_opt (_char_to_input_events (S fuel)) (format_x (ord c)) = Some parts) as ->.
  { apply map_opt_Forall2. eapply Forall2_impl; [|exact Hparts].
    intros d evs (k & _ & _ & Hget). now apply encode_direct. }
  now rewrite concat_bracket.
Qed.

(** The encoding returns for every character as soon as the fuel is two. *)
Lemma encode_total (fuel : nat) (c : char) :
  exists evs, _char_to_input_events (S (S fuel)) c = Some evs.
Proof.
  destruct (dict_contains LATIN_CHAR_TO_INPUT_EVENTS_DICT c) eqn:Hc.
  - apply dict_contains_true in Hc as [evs Hget].
    exists evs. now apply encode_direct.
  - destruct (encode_fallback fuel c Hc) as (parts & _ & ->). eauto.
Qed.

(** More fuel than two changes nothing. *)
Lemma encode_fuel_irrelevant (fuel fuel' : nat) (c : char) :
  _char_to_input_events (S (S fuel)) c = _char_to_input_events (S (S fuel')) c.
Proof.
  destruct (dict_contains LATIN_CHAR_TO_INPUT_EVENTS_DICT c) eqn:Hc.
  - apply dict_contains_true in Hc as [evs Hget].
    now rewrite !(encode_direct _ _ _ Hget).
  - destruct (encode_fallback fuel c Hc) as (parts & Hparts & ->).
    destruct (encode_fallback fuel' c Hc) as (parts' & Hparts' & ->).
    enough (parts = parts') as -> by reflexivity.
    clear Hc. revert parts' Hparts'.
    induction Hparts as [|d evs ds parts (k & _ & _ & Hget) _ IH]; intros parts' Hparts';
      inversion Hparts' as [|? evs' ? parts'' (k' & _ & _ & Hget') Hrest]; subst.
    + reflexivity.
    + f_equal; [congruence | now apply IH].
Qed.

Lemma Forall2_and_left (A B : Type) (P : A -> Prop) (Q : A -> B -> Prop)
    (xs : list A) (ys : list B) :
  Forall P xs -> Forall2 Q xs ys -> Forall2 (fun x y => P x /\ Q x y) xs ys.
Proof.
  intros HP HQ. induction HQ; constructor; inversion HP; subst; auto.
Qed.

(** ** The shifted characters *)

Lemma events_eqb_eq (a b : list InputEvent) : events_eqb a b = true <-> a = b.
Proof.
  revert b; induction a as [|x a IH]; intros [|y b]; simpl; split;
    try discriminate; try reflexivity.
  - rewrite andb_true_iff, InputEvent_eqb_eq, IH. now intros [-> ->].
  - intros [= -> ->]. rewrite andb_true_iff, InputEvent_eqb_eq, IH. auto.
Qed.

Lemma layout_shift_entries_checked :
  forallb layout_shift_entry_ok US_LAYOUT = true.
Proof. vm_compute. reflexivity. Qed.

Lemma shifted_key_of_In (layout : list (EV_KEY.t * ascii * option ascii))
    (c : char) (k : EV_KEY.t) :
  shifted_key_of layout c = Some k ->
  exists plain s, In (k, plain, Some s) layout /\ lit s = c.
Proof.
  induction layout as [|[[k' plain] [s|]] layout IH]; simpl; [discriminate| |].
  - destruct (N.eqb_spec (lit s) c) as [Hs|_].
    + intros [= ->]. exists plain, s. auto.
    + intros H. destruct (IH H) as (p & s' & Hin & Hs'). exists p, s'. auto.
  - intros H. destruct (IH H) as (p & s' & Hin & Hs'). exists p, s'. auto.
Qed.

(** The shifted character of a key of the US layout, unless it is the plus
    sign, has the table entry [_shift_press_and_release] of that key. *)
Lemma shifted_character_entry (c : char) (k : EV_KEY.t) :
  shifted_key_of US_LAYOUT c = Some k ->
  c <> lit "+" ->
  dict_get LATIN_CHAR_TO_INPUT_EVENTS_DICT c = Some (_shift_press_and_release k).
Proof.
  intros Hk Hplus.
  destruct (shifted_key_of_In US_LAYOUT c k Hk) as (plain & s & Hin & <-).
  pose proof layout_shift_entries_checked as Hall.
  rewrite forallb_forall in Hall. specialize (Hall _ Hin).
  unfold layout_shift_entry_ok in Hall.
  apply orb_true_iff in Hall as [H|H].
  - apply N.eqb_eq in H. contradiction.
  - destruct (dict_get LATIN_CHAR_TO_INPUT_EVENTS_DICT (lit s)) as [evs|];
      simpl in H; [|discriminate H].
    apply events_eqb_eq in H. now subst.
Qed.

(** C2, the code against the claim.  The encoding of the character A is
    the six events shift press, A press, marker, A release, shift release,
    marker, in that order.  Every character that is the shifted character
    of a key of the US layout, the plus sign apart, is encoded as shift
    press, press of that key, marker, release of that key, shift release,
    marker.  The plus sign is the shifted character of the equal key, but
    is encoded with the key of the digit 0 in the place of its own key. *)
Theorem C2_shifted_characters (fuel : nat) :
  _char_to_input_events (S fuel) (lit "A") =
    Some [ LEFT_SHIFT_PRESS; press KEY_A; SYN_REPORT;
           release KEY_A; LEFT_SHIFT_RELEASE; SYN_REPORT ]
  /\ (forall c k,
        shifted_key_of US_LAYOUT c = Some k ->
        c <> lit "+" ->
        _char_to_input_events (S fuel) c =
          Some [ LEFT_SHIFT_PRESS; press k; SYN_REPORT;
                 release k; LEFT_SHIFT_RELEASE; SYN_REPORT ])
  /\ shifted_key_of US_LAYOUT (lit "+") = Some KEY_EQUAL
  /\ _char_to_input_events (S fuel) (lit "+") =
       Some [ LEFT_SHIFT_PRESS; press KEY_0; SYN_REPORT;
              release KEY_0; LEFT_SHIFT_RELEASE; SYN_REPORT ]
  /\ _char_to_input_events (S fuel) (lit "+") <>
       Some [ LEFT_SHIFT_PRESS; press KEY_EQUAL; SYN_REPORT;
              release KEY_EQUAL; LEFT_SHIFT_RELEASE; SYN_REPORT ].
Proof.
  split; [reflexivity|]. split; [|split; [reflexivity|split; [reflexivity|]]].
  - intros c k Hk Hplus.
    apply encode_direct. exact (shifted_character_entry c k Hk Hplus).
  - discriminate.
Qed.

(** ** The fallback sequence *)

(** C3. For every character that is not in the direct table, and every fuel
    from two on, the encoding returns: it is the init sequence, then the
    table entries of the characters of ['%x' % ord(char)] in order, then the
    end sequence.  Every such character is one of 0123456789abcdef and is
    encoded by its table entry already with a fuel of one, that is without
    entering the fallback again.  These characters write the code point in
    base sixteen, and no string of such digits that writes it is shorter. *)
Theorem C3_unicode_fallback (fuel : nat) (c : char) :
  dict_contains LATIN_CHAR_TO_INPUT_EVENTS_DICT c = false ->
  exists parts,
    _char_to_input_events (S (S fuel)) c =
      Some (UNICODE_INPUT_INIT_EVENT_SEQUENCE ++ concat parts
            ++ UNICODE_INPUT_END_EVENT_SEQUENCE)
    /\ Forall2 (fun d evs =>
                  In d hex_digit_chars
                  /\ dict_get LATIN_CHAR_TO_INPUT_EVENTS_DICT d = Some evs
                  /\ _char_to_input_events 1 d = Some evs)
               (format_x (ord c)) parts
    /\ int_of_hex (format_x (ord c)) = Some (ord c)
    /\ (forall s, int_of_hex s = Some (ord c) ->
                  List.length (format_x (ord c)) <= List.length s).
Proof.
  intros Hc.
  destruct (encode_fallback fuel c Hc) as (parts & Hparts & Henc).
  exists parts. repeat split.
  - exact Henc.
  - apply (Forall2_impl _ _
             (fun d evs => In d hex_digit_chars /\
                (exists k, In k digit_keys /\ evs = _press_and_release k /\
                           dict_get LATIN_CHAR_TO_INPUT_EVENTS_DICT d = Some evs))).
    + intros d evs (Hd & k & _ & _ & Hget). repeat split; try assumption.
      now apply encode_direct.
    + apply Forall2_and_left; [apply format_x_hex | exact Hparts].
  - apply int_of_hex_format_x.
  - apply format_x_minimal.
Qed.

Lemma C3_unicode_fallback_witness :
  dict_contains LATIN_CHAR_TO_INPUT_EVENTS_DICT euro = false
  /\ exists parts,
       _char_to_input_events 2 euro =
         Some (UNICODE_INPUT_INIT_EVENT_SEQUENCE ++ concat parts
               ++ UNICODE_INPUT_END_EVENT_SEQUENCE)
       /\ Forall2 (fun d evs =>
                     In d hex_digit_chars
                     /\ dict_get LATIN_CHAR_TO_INPUT_EVENTS_DICT d = Some evs
                     /\ _char_to_input_events 1 d = Some evs)
                  (format_x (ord euro)) parts
       /\ int_of_hex (format_x (ord euro)) = Some (ord euro)
       /\ (forall s, int_of_hex s = Some (ord euro) ->
                     List.length (format_x (ord euro)) <= List.length s).
Proof.
  split; [reflexivity|].
  apply (C3_unicode_fallback 0 euro). reflexivity.
Defined.

(** C4, as the code has it.  The encoding of the euro sign, code point
    0x20AC, is the init sequence of seven events, then the encodings of the
    characters 2, 0, a and c in that order, then the end sequence of three
    events; its length is the sum of the lengths of these six parts. *)
Theorem C4_euro_sequence (fuel : nat) :
  exists e2 e0 ea ec,
    _char_to_input_events (S (S fuel)) (lit "2") = Some e2
    /\ _char_to_input_events (S (S fuel)) (lit "0") = Some e0
    /\ _char_to_input_events (S (S fuel)) (lit "a") = Some ea
    /\ _char_to_input_events (S (S fuel)) (lit "c") = Some ec
    /\ _char_to_input_events (S (S fuel)) euro =
         Some (UNICODE_INPUT_INIT_EVENT_SEQUENCE ++ e2 ++ e0 ++ ea ++ ec
               ++ UNICODE_INPUT_END_EVENT_SEQUENCE)
    /\ List.length UNICODE_INPUT_INIT_EVENT_SEQUENCE = 7
    /\ List.length UNICODE_INPUT_END_EVENT_SEQUENCE = 3
    /\ option_map (@List.length InputEvent) (_char_to_input_events (S (S fuel)) euro) =
         Some (7 + List.length e2 + List.length e0 + List.length ea
               + List.length ec + 3).
Proof.
  exists (_press_and_release KEY_2), (_press_and_release KEY_0),
         (_press_and_release KEY_A), (_press_and_release KEY_C).
  rewrite (encode_fuel_irrelevant fuel 0 euro).
  repeat split; reflexivity.
Qed.

(** C4 as stated fails: the encoding of the euro sign is not a sequence of
    three events, then the encodings of 2, 0, a, c, then a sequence of three
    events. *)
Lemma C4_three_event_init_counterexample :
  ~ exists init fin e2 e0 ea ec,
      List.length init = 3 /\ List.length fin = 3
      /\ _char_to_input_events 2 (lit "2") = Some e2
      /\ _char_to_input_events 2 (lit "0") = Some e0
      /\ _char_to_input_events 2 (lit "a") = Some ea
      /\ _char_to_input_events 2 (lit "c") = Some ec
      /\ _char_to_input_events 2 euro =
           Some (init ++ e2 ++ e0 ++ ea ++ ec ++ fin).
Proof.
  intros (init & fin & e2 & e0 & ea & ec & Hi & Hf & H2 & H0 & Ha & Hc & H).
  vm_compute in H2, H0, Ha, Hc.
  injection H2 as <-. injection H0 as <-. injection Ha as <-. injection Hc as <-.
  assert (option_map (@List.length InputEvent) (_char_to_input_events 2 euro)
          = Some 26) as Hlen by reflexivity.
  rewrite H in Hlen. simpl in Hlen. injection Hlen as Hlen.
  rewrite !List.length_app in Hlen. simpl in Hlen. lia.
Qed.

(** ** The table against the US layout *)

(** C9, the code at the failing inputs.  The table agrees with the US
    layout at every character but two.  The comma is typed as shift with
    the equal key, where the layout has the comma key alone.  The plus sign
    is typed as shift with the key of the digit 0, where the layout has
    shift with the equal key; so the plus sign gets the very sequence of
    the closing parenthesis, a character of another key. *)
Theorem C9_table_slips :
  _char_to_input_events 1 (lit ",") = Some (_shift_press_and_release KEY_EQUAL)
  /\ layout_events US_LAYOUT (lit ",") = Some (_press_and_release KEY_COMMA)
  /\ _char_to_input_events 1 (lit "+") = Some (_shift_press_and_release KEY_0)
  /\ layout_events US_LAYOUT (lit "+") = Some (_shift_press_and_release KEY_EQUAL)
  /\ _char_to_input_events 1 (lit "+") = _char_to_input_events 1 (lit ")")
  /\ lit "+" <> lit ")"
  /\ map fst (filter (fun kv => negb (entry_matches_layout kv))
                     LATIN_CHAR_TO_INPUT_EVENTS_DICT)
     = [lit "+"; lit ","].
Proof. repeat split; try reflexivity. discriminate. Qed.

(** ** Keys along a sequence *)

Ltac event_cases :=
  repeat match goal with
         | |- context [InputEvent_eqb ?a ?b] =>
             let E := fresh "E" in
             destruct (InputEvent_eqb a b) eqn:E;
             [ apply InputEvent_eqb_eq in E | apply InputEvent_eqb_neq in E ]
         end.

Lemma key_run_app (k : EV_KEY.t) (l1 l2 : list InputEvent) (down : bool) :
  key_run k down (l1 ++ l2) =
    match key_run k down l1 with
    | Some down' => key_run k down' l2
    | None => None
    end.
Proof.
  revert down; induction l1 as [|e l1 IH]; intros down; simpl; [reflexivity|].
  destruct (InputEvent_eqb e (press k)); [destruct down; auto|].
  destruct (InputEvent_eqb e (release k)); [destruct down; auto|].
  apply IH.
Qed.

(** A key pressed and released, seen from key [k]: nothing changes, but [k]
    itself must be up. *)
Lemma key_run_press_and_release (k k' : EV_KEY.t) (down : bool) :
  (down = true -> k <> k') ->
  key_run k down (_press_and_release k') = Some down.
Proof.
  intros Hdown. unfold _press_and_release, press, release, SYN_REPORT.
  cbn [key_run]. unfold press, release.
  destruct (key_eq_dec k k') as [->|Hne].
  - destruct down; [now elim Hdown|].
    event_cases; congruence.
  - event_cases; destruct down; congruence.
Qed.

Lemma key_run_init (k : EV_KEY.t) :
  key_run k false UNICODE_INPUT_INIT_EVENT_SEQUENCE = Some (is_modifier k).
Proof. destruct k; reflexivity. Qed.

Lemma key_run_end (k : EV_KEY.t) :
  key_run k (is_modifier k) UNICODE_INPUT_END_EVENT_SEQUENCE = Some false.
Proof. destruct k; reflexivity. Qed.

Lemma modifier_not_digit (k k' : EV_KEY.t) :
  is_modifier k = true -> In k' digit_keys -> k <> k'.
Proof.
  intros Hm Hd ->. 
  unfold digit_keys in Hd. simpl in Hd.
  repeat (destruct Hd as [<- | Hd]; [discriminate Hm|]).
  destruct Hd.
Qed.

Lemma key_run_digits (k : EV_KEY.t) (ds : str) (parts : list (list InputEvent)) :
  Forall2 (fun d evs =>
             exists k', In k' digit_keys /\ evs = _press_and_release k' /\
                        dict_get LATIN_CHAR_TO_INPUT_EVENTS_DICT d = Some evs)
          ds parts ->
  key_run k (is_modifier k) (concat parts) = Some (is_modifier k).
Proof.
  induction 1 as [|d evs ds parts (k' & Hk' & -> & _) _ IH]; cbn [concat]; [reflexivity|].
  rewrite key_run_app, key_run_press_and_release; [cbv beta iota; exact IH|].
  intros Hm. now apply modifier_not_digit.
Qed.

Lemma table_keys_checked :
  forallb (fun kv => keys_ok (snd kv)) LATIN_CHAR_TO_INPUT_EVENTS_DICT = true.
Proof. vm_compute. reflexivity. Qed.

Lemma key_run_table (c : char) (evs : list InputEvent) (k : EV_KEY.t) :
  dict_get LATIN_CHAR_TO_INPUT_EVENTS_DICT c = Some evs ->
  key_run k false evs = Some false.
Proof.
  intros Hget.
  pose proof (dict_forall _ (fun _ evs => keys_ok evs) _
                table_keys_checked c evs Hget) as Hok.
  unfold keys_ok in Hok.
  pose proof (forall_keys _ Hok k) as Hk. simpl in Hk.
  destruct (key_run k false evs) as [[|]|]; congruence.
Qed.

(** Every encoding starts and ends with all keys up and runs without a
    press of a held key or a release of a key that is up. *)
Lemma key_run_encode (fuel : nat) (c : char) (evs : list InputEvent) (k : EV_KEY.t) :
  _char_to_input_events (S (S fuel)) c = Some evs ->
  key_run k false evs = Some false.
Proof.
  destruct (dict_contains LATIN_CHAR_TO_INPUT_EVENTS_DICT c) eqn:Hc.
  - apply dict_contains_true in Hc as [evs' Hget].
    rewrite (encode_direct _ _ _ Hget). intros [= <-].
    now apply key_run_table with c.
  - destruct (encode_fallback fuel c Hc) as (parts & Hparts & ->).
    intros H.
    assert (evs = UNICODE_INPUT_INIT_EVENT_SEQUENCE ++ concat parts
                  ++ UNICODE_INPUT_END_EVENT_SEQUENCE) as -> by congruence.
    rewrite key_run_app, key_run_init. cbv beta iota.
    rewrite key_run_app, (key_run_digits k _ _ Hparts). cbv beta iota.
    apply key_run_end.
Qed.

(** ** From the run of a key to the properties of the sequence *)

Lemma key_run_release_follows (k : EV_KEY.t) (l : list InputEvent) :
  key_run k true l = Some false ->
  exists between rest,
    l = between ++ release k :: rest /\ ~ In (press k) between.
Proof.
  induction l as [|e l IH]; simpl; [discriminate|].
  destruct (InputEvent_eqb e (press k)) eqn:Ep; [discriminate|].
  destruct (InputEvent_eqb e (release k)) eqn:Er.
  - intros _. apply InputEvent_eqb_eq in Er as ->.
    exists [], l. split; [reflexivity | intros []].
  - intros H. destruct (IH H) as (between & rest & -> & Hnot).
    exists (e :: between), rest. split; [reflexivity|].
    intros [->|Hin]; [|now apply Hnot].
    now rewrite InputEvent_eqb_refl in Ep.
Qed.

Lemma key_run_press_found (k : EV_KEY.t) (before after : list InputEvent)
    (down final : bool) :
  key_run k down (before ++ press k :: after) = Some final ->
  key_run k true after = Some final.
Proof.
  rewrite key_run_app.
  destruct (key_run k down before) as [down'|]; [|discriminate].
  simpl. rewrite InputEvent_eqb_refl.
  destruct down'; [discriminate | trivial].
Qed.

Lemma key_run_no_self_overlap (evs : list InputEvent) :
  (forall k, key_run k false evs = Some false) -> no_self_overlap evs.
Proof.
  intros H k before after ->.
  apply key_run_release_follows.
  exact (key_run_press_found k before after false false (H k)).
Qed.

Lemma key_run_counts (k : EV_KEY.t) (l : list InputEvent) (down final : bool) :
  key_run k down l = Some final ->
  count_events (press k) l + (if down then 1 else 0)
  = count_events (release k) l + (if final then 1 else 0).
Proof.
  unfold count_events.
  revert down; induction l as [|e l IH]; intros down; simpl.
  - intros [= ->]. reflexivity.
  - destruct (InputEvent_eqb e (press k)) eqn:Ep.
    + apply InputEvent_eqb_eq in Ep as ->.
      rewrite InputEvent_eqb_refl.
      assert (InputEvent_eqb (release k) (press k) = false) as ->
        by (apply InputEvent_eqb_neq; discriminate).
      destruct down; [discriminate|].
      intros H. apply IH in H. simpl in *. lia.
    + assert (InputEvent_eqb (press k) e = false) as ->.
      { apply InputEvent_eqb_neq. apply InputEvent_eqb_neq in Ep. congruence. }
      destruct (InputEvent_eqb e (release k)) eqn:Er.
      * apply InputEvent_eqb_eq in Er as ->.
        rewrite InputEvent_eqb_refl.
        destruct down; [|discriminate].
        intros H. apply IH in H. simpl in *. lia.
      * assert (InputEvent_eqb (release k) e = false) as ->.
        { apply InputEvent_eqb_neq. apply InputEvent_eqb_neq in Er. congruence. }
        apply IH.
Qed.

Lemma key_run_balanced (evs : list InputEvent) :
  (forall k, key_run k false evs = Some false) -> balanced evs.
Proof.
  intros H k. pose proof (key_run_counts k evs false false (H k)). lia.
Qed.

Lemma last_is_marker_sound (evs : list InputEvent) :
  last_is_marker evs = true -> ends_with_marker evs.
Proof.
  unfold last_is_marker, ends_with_marker.
  destruct evs as [|e evs]; [discriminate|].
  intros H. apply InputEvent_eqb_eq in H.
  exists (removelast (e :: evs)).
  rewrite <- H. apply app_removelast_last. discriminate.
Qed.

Lemma table_markers_checked :
  forallb (fun kv => last_is_marker (snd kv)) LATIN_CHAR_TO_INPUT_EVENTS_DICT = true.
Proof. vm_compute. reflexivity. Qed.

Lemma encode_ends_with_marker (fuel : nat) (c : char) (evs : list InputEvent) :
  _char_to_input_events (S (S fuel)) c = Some evs -> ends_with_marker evs.
Proof.
  destruct (dict_contains LATIN_CHAR_TO_INPUT_EVENTS_DICT c) eqn:Hc.
  - apply dict_contains_true in Hc as [evs' Hget].
    rewrite (encode_direct _ _ _ Hget). intros [= <-].
    apply last_is_marker_sound.
    exact (dict_forall _ (fun _ evs => last_is_marker evs) _
             table_markers_checked c evs' Hget).
  - destruct (encode_fallback fuel c Hc) as (parts & _ & ->).
    intros H.
    exists (UNICODE_INPUT_INIT_EVENT_SEQUENCE ++ concat parts
            ++ [LEFT_SHIFT_RELEASE; mkInputEvent KEY_LEFTCTRL 0]).
    assert (evs = UNICODE_INPUT_INIT_EVENT_SEQUENCE ++ concat parts
                  ++ UNICODE_INPUT_END_EVENT_SEQUENCE) as -> by congruence.
    rewrite <- !List.app_assoc. reflexivity.
Qed.

(** C6. For every character, the encoding (which returns with every fuel
    from two on) ends with the marker, has for each key as many presses as
    releases, and after each press of a key has a release of that key with
    no other press of it in between. *)
Theorem C6_encoding_well_formed (fuel : nat) (c : char) :
  exists evs,
    _char_to_input_events (S (S fuel)) c = Some evs
    /\ ends_with_marker evs
    /\ balanced evs
    /\ no_self_overlap evs.
Proof.
  destruct (encode_total fuel c) as [evs Henc].
  exists evs. split; [exact Henc|].
  assert (forall k, key_run k false evs = Some false) as Hrun
    by (intros k; exact (key_run_encode fuel c evs k Henc)).
  split; [|split].
  - exact (encode_ends_with_marker fuel c evs Henc).
  - now apply key_run_balanced.
  - now apply key_run_no_self_overlap.
Qed.

(** ** The emulation methods *)

(** What one call of [send_events] does: it returns after writing the whole
    batch, no write having failed; or it raises at the first write that
    fails, the events before it written. *)
Lemma write_events_spec
    (write_fails : Device -> list InputEvent -> InputEvent -> option PyExc)
    (dev : Device) (events written : list InputEvent) :
  match write_events write_fails dev written events with
  | (Return _, w) =>
      w = written ++ events
      /\ forall p x rest,
           events = p ++ x :: rest -> write_fails dev (written ++ p) x = None
  | (Raise e, w) =>
      exists p x rest,
        events = p ++ x :: rest
        /\ w = written ++ p
        /\ write_fails dev (written ++ p) x = Some e
  end.
Proof.
  revert written; induction events as [|ev events IH]; intros written; simpl.
  - split; [now rewrite List.app_nil_r|].
    intros p x rest H. destruct p; discriminate H.
  - destruct (write_fails dev written ev) as [e|] eqn:Hw.
    + exists [], ev, events. rewrite List.app_nil_r. auto.
    + specialize (IH (written ++ [ev])).
      destruct (write_events write_fails dev (written ++ [ev]) events) as [[u|e] w].
      * destruct IH as [-> Hok]. split; [now rewrite <- List.app_assoc|].
        intros [|y p] x rest H; simpl in H; injection H as <- ->.
        -- now rewrite List.app_nil_r.
        -- specialize (Hok p x rest eq_refl).
           now rewrite <- List.app_assoc in Hok.
      * destruct IH as (p & x & rest & -> & -> & Hf).
        exists (ev :: p), x, rest. rewrite <- List.app_assoc in Hf |- *. auto.
Qed.

Lemma send_events_spec
    (write_fails : Device -> list InputEvent -> InputEvent -> option PyExc)
    (batch : list InputEvent) (dev : Device) :
  match _send_events write_fails batch dev with
  | (Return _, dev') =>
      dev' = dev ++ [batch]
      /\ forall p x rest, batch = p ++ x :: rest -> write_fails dev p x = None
  | (Raise e, dev') =>
      exists p x rest,
        batch = p ++ x :: rest
        /\ dev' = dev ++ [p]
        /\ write_fails dev p x = Some e
  end.
Proof.
  unfold _send_events, send_events.
  pose proof (write_events_spec write_fails dev batch []) as H.
  destruct (write_events write_fails dev [] batch) as [[u|e] w]; simpl in H.
  - destruct H as [-> Hok]. auto.
  - destruct H as (p & x & rest & -> & -> & Hf). exists p, x, rest. auto.
Qed.

(** When no write fails, a call returns and the device has the batch. *)
Lemma send_events_ok
    (write_fails : Device -> list InputEvent -> InputEvent -> option PyExc)
    (batch : list InputEvent) (dev : Device) :
  (forall d w e, write_fails d w e = None) ->
  _send_events write_fails batch dev = (Return tt, dev ++ [batch]).
Proof.
  intros Hok. pose proof (send_events_spec write_fails batch dev) as H.
  destruct (_send_events write_fails batch dev) as [[[]|e] dev'].
  - now destruct H as [-> _].
  - destruct H as (p & x & rest & _ & _ & Hf). rewrite Hok in Hf. discriminate.
Qed.

Lemma for_range_send
    (write_fails : Device -> list InputEvent -> InputEvent -> option PyExc)
    (batch : list InputEvent) (n : nat) (dev : Device) :
  exists k,
    k <= n
    /\ match for_range n (_send_events write_fails batch) dev with
       | (Return _, dev') => k = n /\ dev' = dev ++ repeat batch k
       | (Raise e, dev') =>
           k < n
           /\ exists p x rest,
                batch = p ++ x :: rest
                /\ dev' = dev ++ repeat batch k ++ [p]
                /\ write_fails (dev ++ repeat batch k) p x = Some e
       end.
Proof.
  revert dev; induction n as [|n IH]; intros dev.
  - exists 0. simpl. rewrite List.app_nil_r. auto.
  - cbn [for_range].
    pose proof (send_events_spec write_fails batch dev) as Hs.
    destruct (_send_events write_fails batch dev) as [[u|e] dev1].
    + destruct Hs as [-> _].
      destruct (IH (dev ++ [batch])) as (k & Hk & Hres).
      exists (S k). split; [lia|].
      destruct (for_range n (_send_events write_fails batch) (dev ++ [batch]))
        as [[u'|e] dev'].
      * destruct Hres as [-> ->]. split; [reflexivity|].
        simpl. now rewrite <- List.app_assoc.
      * destruct Hres as (Hlt & p & x & rest & Hb & -> & Hf).
        split; [lia|]. exists p, x, rest. simpl.
        rewrite <- !List.app_assoc in *. simpl in *. auto.
    + destruct Hs as (p & x & rest & Hb & -> & Hf).
      exists 0. split; [lia|]. split; [lia|].
      exists p, x, rest. simpl. rewrite List.app_nil_r. auto.
Qed.

(** C7, as the code has it.  For a count that is not negative,
    [send_backspaces] makes its sends one after the other, each of the
    batch backspace press, marker, backspace release, marker, and never
    merges two of them.  When the call returns, the device has received
    exactly count such batches, one per send.  When it raises [e], with [k]
    sends completed before, [k] is below the count, the device has received
    these [k] batches in full and then the events of the next batch that
    were written before the write that raised [e], fewer than four and
    possibly none; nothing is sent after. *)
Theorem C7_send_backspaces
    (write_fails : Device -> list InputEvent -> InputEvent -> option PyExc)
    (count : Z) (dev : Device) :
  (0 <= count)%Z ->
  exists k : nat,
    (Z.of_nat k <= count)%Z
    /\ match send_backspaces write_fails count dev with
       | (Return _, dev') =>
           Z.of_nat k = count
           /\ dev' = dev ++ repeat
                       [BACKSPACE_PRESS; SYN_REPORT; BACKSPACE_RELEASE; SYN_REPORT] k
       | (Raise e, dev') =>
           (Z.of_nat k < count)%Z
           /\ exists p x rest,
                [BACKSPACE_PRESS; SYN_REPORT; BACKSPACE_RELEASE; SYN_REPORT]
                  = p ++ x :: rest
                /\ dev' = dev ++ repeat backspace_group k ++ [p]
                /\ write_fails (dev ++ repeat backspace_group k) p x = Some e
       end.
Proof.
  intros Hcount. unfold send_backspaces, range_len. fold backspace_group.
  destruct (for_range_send write_fails backspace_group (Z.to_nat count) dev)
    as (k & Hk & Hres).
  exists k. split; [lia|].
  destruct (for_range (Z.to_nat count)
              (_send_events write_fails backspace_group) dev) as [[u|e] dev'].
  - destruct Hres as [-> ->]. split; [lia | reflexivity].
  - destruct Hres as [Hlt Hp]. split; [lia | exact Hp].
Qed.

Lemma C7_send_backspaces_witness :
  (0 <= 3)%Z
  /\ exists k : nat,
       (Z.of_nat k <= 3)%Z
       /\ match send_backspaces
                  (fun dev written _ =>
                     if Nat.eqb (List.length dev) 1 && Nat.eqb (List.length written) 2
                     then Some (OSError "write failed") else None)
                  3 [] with
          | (Return _, dev') =>
              Z.of_nat k = 3%Z
              /\ dev' = [] ++ repeat
                          [BACKSPACE_PRESS; SYN_REPORT; BACKSPACE_RELEASE; SYN_REPORT] k
          | (Raise e, dev') =>
              (Z.of_nat k < 3)%Z
              /\ exists p x rest,
                   [BACKSPACE_PRESS; SYN_REPORT; BACKSPACE_RELEASE; SYN_REPORT]
                     = p ++ x :: rest
                   /\ dev' = [] ++ repeat backspace_group k ++ [p]
                   /\ (fun (dev : Device) (written : list InputEvent)
                           (_ : InputEvent) =>
                         if Nat.eqb (List.length dev) 1
                            && Nat.eqb (List.length written) 2
                         then Some (OSError "write failed") else None)
                        ([] ++ repeat backspace_group k) p x = Some e
          end.
Proof.
  split; [lia|].
  apply (C7_send_backspaces
           (fun dev written _ =>
              if Nat.eqb (List.length dev) 1 && Nat.eqb (List.length written) 2
              then Some (OSError "write failed") else None)
           3 []).
  lia.
Defined.

Lemma repeat_group_length (batch : list InputEvent) (k : nat) :
  List.length (concat (repeat batch k)) = k * List.length batch.
Proof.
  induction k as [|k IH]; simpl; [reflexivity|].
  now rewrite List.length_app, IH.
Qed.

(** C7 as stated fails: when the third write of the second send raises,
    after one completed send, the device has received the first batch and
    then backspace press and marker.  What it has received is not a number
    of whole batches, and the backspace key is left held. *)
Lemma C7_partial_group_counterexample :
  send_backspaces
    (fun dev written _ =>
       if Nat.eqb (List.length dev) 1 && Nat.eqb (List.length written) 2
       then Some (OSError "write failed") else None)
    3 []
  = (Raise (OSError "write failed"),
     [ [BACKSPACE_PRESS; SYN_REPORT; BACKSPACE_RELEASE; SYN_REPORT];
       [BACKSPACE_PRESS; SYN_REPORT] ])
  /\ (forall k,
        concat [ [BACKSPACE_PRESS; SYN_REPORT; BACKSPACE_RELEASE; SYN_REPORT];
                 [BACKSPACE_PRESS; SYN_REPORT] ]
        <> concat (repeat
                     [BACKSPACE_PRESS; SYN_REPORT; BACKSPACE_RELEASE; SYN_REPORT] k))
  /\ key_run KEY_BACKSPACE false
       (concat [ [BACKSPACE_PRESS; SYN_REPORT; BACKSPACE_RELEASE; SYN_REPORT];
                 [BACKSPACE_PRESS; SYN_REPORT] ])
     = Some true.
Proof.
  split; [reflexivity|]. split; [|reflexivity].
  intros k H. apply (f_equal (@List.length InputEvent)) in H.
  rewrite repeat_group_length in H. simpl in H. lia.
Qed.

(** C8, as the code has it.  With a negative count [send_backspaces] sends
    nothing and returns: [range(count)] is empty. *)
Theorem C8_negative_count_sends_nothing
    (write_fails : Device -> list InputEvent -> InputEvent -> option PyExc)
    (count : Z) (dev : Device) :
  (count < 0)%Z ->
  send_backspaces write_fails count dev = (Return tt, dev).
Proof.
  intros Hneg. unfold send_backspaces, range_len.
  destruct count; try lia. reflexivity.
Qed.

Lemma C8_negative_count_sends_nothing_witness :
  (-1 < 0)%Z
  /\ send_backspaces (fun _ _ _ => None) (-1) [] = (Return tt, []).
Proof.
  split; [lia|].
  apply (C8_negative_count_sends_nothing (fun _ _ _ => None) (-1) []). lia.
Defined.

(** C8 as stated fails: with the count -1, [send_backspaces] does not
    raise. *)
Lemma C8_negative_count_counterexample :
  ~ exists e, fst (send_backspaces (fun _ _ _ => None) (-1) []) = Raise e.
Proof. intros [e H]. discriminate H. Qed.

Lemma send_string_encodes
    (fuel : nat) (string : str) :
  exists seqs,
    Forall2 (fun c evs => _char_to_input_events (S (S fuel)) c = Some evs) string seqs.
Proof.
  induction string as [|c string [seqs IH]].
  - exists []. constructor.
  - destruct (encode_total fuel c) as [evs Hevs].
    exists (evs :: seqs). now constructor.
Qed.

(** C5. For every string and every fuel from two on, [send_string] returns
    or raises and makes one send; the batch handed to it is the
    concatenation, in the order of the string, of the encodings of its
    characters.  When the send returns, the device has received exactly
    this batch; when a write raises, the events of the batch before that
    write.  For the empty string the batch is empty. *)
Theorem C5_send_string
    (write_fails : Device -> list InputEvent -> InputEvent -> option PyExc)
    (fuel : nat) (string : str) (dev : Device) :
  exists seqs,
    Forall2 (fun c evs => _char_to_input_events (S (S fuel)) c = Some evs) string seqs
    /\ send_string write_fails (S (S fuel)) string dev =
         Some (_send_events write_fails (concat seqs) dev)
    /\ match _send_events write_fails (concat seqs) dev with
       | (Return _, dev') => dev' = dev ++ [concat seqs]
       | (Raise e, dev') =>
           exists p x rest,
             concat seqs = p ++ x :: rest
             /\ dev' = dev ++ [p]
             /\ write_fails dev p x = Some e
       end
    /\ send_string write_fails (S (S fuel)) [] dev =
         Some (_send_events write_fails [] dev)
    /\ _send_events write_fails [] dev = (Return tt, dev ++ [[]]).
Proof.
  destruct (send_string_encodes fuel string) as [seqs Hseqs].
  exists seqs. split; [exact Hseqs|].
  split.
  { unfold send_string. apply map_opt_Forall2 in Hseqs. now rewrite Hseqs. }
  split; [|split; reflexivity].
  pose proof (send_events_spec write_fails (concat seqs) dev) as H.
  destruct (_send_events write_fails (concat seqs) dev) as [[u|e] dev'].
  - now destruct H.
  - exact H.
Qed.

(** ** The facades *)

(** The libevdev capture constructor raises [NotImplementedError], whatever
    happened before. *)
Lemma ev_kc_raises (tr : Trace) :
  ev_kc tr = (Raise NotImplementedError, tr ++ [Call_ev_kc]).
Proof. reflexivity. Qed.

Lemma KeyboardCapture_init_eq (X11Capture : Type)
    (x11_kc_outcome : Trace -> result X11Capture) (tr : Trace) :
  KeyboardCapture_init x11_kc_outcome tr =
    (match x11_kc_outcome
             (tr ++ [Call_ev_kc] ++
              [Log_warning
                 "Keyboard capture falling back to X11 as libevdev backend failed: "])
     with
     | Return o => Return (Xlib o)
     | Raise e => Raise e
     end,
     (tr ++ [Call_ev_kc] ++
      [Log_warning
         "Keyboard capture falling back to X11 as libevdev backend failed: "])
     ++ [Call_x11_kc]).
Proof.
  unfold KeyboardCapture_init, try_except_Exception, bind, ev_kc, raise, emit,
    log_warning, x11_kc, ret. simpl.
  rewrite <- ?List.app_assoc. simpl.
  now destruct (x11_kc_outcome _).
Qed.

(** C1, as the code has it.  Each facade constructor calls the libevdev
    constructor once.  When that returns, its object is the delegate and
    nothing else happens.  When it raises an exception whose class derives
    from [Exception], one warning is logged whose text ends with the text
    of the exception, then the X11 constructor is called once, the libevdev
    constructor is not called again, and the outcome of the X11 constructor
    is the outcome of the facade constructor: its object as the delegate,
    or its exception.  When the libevdev constructor raises an exception of
    another class, that exception leaves the facade constructor, with no
    warning and no call of the X11 constructor. *)
Theorem C1_facade_fallback (X11Capture X11Emulation : Type)
    (x11_kc_outcome : Trace -> result X11Capture)
    (x11_ke_outcome : Trace -> result X11Emulation)
    (create_uinput_device : Trace -> result Device)
    (tr : Trace) :
  (exists added,
      snd (KeyboardEmulation_init x11_ke_outcome create_uinput_device tr) = tr ++ added
      /\ count_effects is_libevdev_call added = 1
      /\ match create_uinput_device tr with
         | Return d =>
             added = [Call_ev_ke]
             /\ fst (KeyboardEmulation_init x11_ke_outcome create_uinput_device tr)
                = Return (Libevdev d)
         | Raise e =>
             if exc_is_Exception e then
               added =
                 [ Call_ev_ke;
                   Log_warning
                     ("Keyboard emulation falling back to X11 as libevdev backend failed: "
                      ++ exc_str e);
                   Call_x11_ke ]
               /\ fst (KeyboardEmulation_init x11_ke_outcome create_uinput_device tr)
                  = match x11_ke_outcome
                            (tr ++
                             [ Call_ev_ke;
                               Log_warning
                                 ("Keyboard emulation falling back to X11 as libevdev backend failed: "
                                  ++ exc_str e) ])
                    with
                    | Return o => Return (Xlib o)
                    | Raise e' => Raise e'
                    end
             else
               added = [Call_ev_ke]
               /\ fst (KeyboardEmulation_init x11_ke_outcome create_uinput_device tr)
                  = Raise e
         end)
  /\ (exists added,
        snd (KeyboardCapture_init x11_kc_outcome tr) = tr ++ added
        /\ count_effects is_libevdev_call added = 1
        /\ added =
             [ Call_ev_kc;
               Log_warning
                 ("Keyboard capture falling back to X11 as libevdev backend failed: "
                  ++ exc_str NotImplementedError);
               Call_x11_kc ]
        /\ fst (KeyboardCapture_init x11_kc_outcome tr)
           = match x11_kc_outcome
                     (tr ++
                      [ Call_ev_kc;
                        Log_warning
                          ("Keyboard capture falling back to X11 as libevdev backend failed: "
                           ++ exc_str NotImplementedError) ])
             with
             | Return o => Return (Xlib o)
             | Raise e' => Raise e'
             end).
Proof.
  split.
  - unfold KeyboardEmulation_init, try_except_Exception, bind, ev_ke, emit,
      log_warning, x11_ke, ret.
    destruct (create_uinput_device tr) as [d|e] eqn:Hc.
    + exists [Call_ev_ke]. simpl. auto.
    + destruct (exc_is_Exception e) eqn:He.
      * eexists. split; [|split; [|split; [reflexivity|]]].
        -- simpl. rewrite <- ?List.app_assoc. simpl.
           destruct (x11_ke_outcome _); reflexivity.
        -- reflexivity.
        -- simpl. rewrite <- ?List.app_assoc. simpl.
           destruct (x11_ke_outcome _); reflexivity.
      * exists [Call_ev_ke]. simpl. auto.
  - rewrite KeyboardCapture_init_eq. eexists. split; [|split; [|split; [reflexivity|]]].
    + simpl. rewrite <- ?List.app_assoc. reflexivity.
    + reflexivity.
    + simpl. rewrite <- ?List.app_assoc. reflexivity.
Qed.

(** C1 as stated fails for an exception that does not derive from
    [Exception]: when the libevdev constructor raises [KeyboardInterrupt],
    the facade constructor raises it too, logs no warning and does not call
    the X11 constructor. *)
Lemma C1_any_exception_counterexample :
  fst (KeyboardEmulation_init
         (fun _ => Return tt) (fun _ => Raise KeyboardInterrupt) [])
    = Raise KeyboardInterrupt
  /\ count_effects is_warning
       (snd (KeyboardEmulation_init
               (fun _ => Return tt) (fun _ => Raise KeyboardInterrupt) [])) = 0
  /\ count_effects is_x11_call
       (snd (KeyboardEmulation_init
               (fun _ => Return tt) (fun _ => Raise KeyboardInterrupt) [])) = 0.
Proof. repeat split. Qed.

(** C10. The libevdev capture constructor raises [NotImplementedError]
    whatever came before.  So whenever the constructor of the capture
    facade returns, the delegate is the object of the X11 constructor, and
    never the libevdev one. *)
Theorem C10_capture_delegate_is_x11 (X11Capture : Type)
    (x11_kc_outcome : Trace -> result X11Capture)
    (tr tr' : Trace) (d : Delegate EvCapture X11Capture) :
  KeyboardCapture_init x11_kc_outcome tr = (Return d, tr') ->
  (forall tr0, fst (ev_kc tr0) = Raise NotImplementedError)
  /\ (forall o, d <> Libevdev o)
  /\ exists o,
       d = Xlib o
       /\ x11_kc_outcome
            (tr ++
             [ Call_ev_kc;
               Log_warning
                 "Keyboard capture falling back to X11 as libevdev backend failed: " ])
          = Return o.
Proof.
  rewrite KeyboardCapture_init_eq. rewrite <- ?List.app_assoc. simpl.
  destruct (x11_kc_outcome _) as [o|e] eqn:Hx; intros H; [|discriminate].
  injection H as <- _.
  split; [reflexivity|]. split; [discriminate|].
  exists o. split; reflexivity.
Qed.

Lemma C10_capture_delegate_is_x11_witness :
  KeyboardCapture_init (fun _ => Return tt) []
    = (Return (Xlib tt),
       [ Call_ev_kc;
         Log_warning
           "Keyboard capture falling back to X11 as libevdev backend failed: ";
         Call_x11_kc ])
  /\ ((forall tr0, fst (ev_kc tr0) = Raise NotImplementedError)
      /\ (forall o, Xlib tt <> @Libevdev EvCapture unit o)
      /\ exists o,
           Xlib tt = @Xlib EvCapture unit o
           /\ (fun _ : Trace => Return tt)
                ([] ++
                 [ Call_ev_kc;
                   Log_warning
                     "Keyboard capture falling back to X11 as libevdev backend failed: " ])
              = Return o).
Proof.
  split; [reflexivity|].
  apply (C10_capture_delegate_is_x11 unit (fun _ => Return tt) []
           [ Call_ev_kc;
             Log_warning
               "Keyboard capture falling back to X11 as libevdev backend failed: ";
             Call_x11_kc ]
           (Xlib tt)).
  reflexivity.
Defined.

(** * Further properties of the two modules *)

(** ** Which characters are typed directly *)

Lemma dict_contains_keys (V : Type) (d : list (char * V)) (k : char) :
  dict_contains d k = true <-> In k (dict_keys d).
Proof.
  unfold dict_contains, dict_keys.
  induction d as [|[k' v] d IH]; simpl.
  - split; [discriminate | intros []].
  - destruct (N.eqb_spec k' k) as [->|Hne].
    + split; auto.
    + rewrite IH. split; [auto | intros [H|H]; [congruence | exact H]].
Qed.

Lemma LATIN_keys_listed :
  dict_keys LATIN_CHAR_TO_INPUT_EVENTS_DICT = LATIN_expected_keys.
Proof. vm_compute. reflexivity. Qed.

(** X1. A character is in the direct table exactly when it is the tab, the
    newline, or a printable ASCII character, from the space (32) to the
    tilde (126).  Every other character takes the Unicode fallback. *)
Theorem X1_table_coverage (c : char) :
  dict_contains LATIN_CHAR_TO_INPUT_EVENTS_DICT c = true
  <-> (c = 9 \/ c = 10 \/ 32 <= c <= 126)%N.
Proof.
  rewrite dict_contains_keys, LATIN_keys_listed.
  unfold LATIN_expected_keys. rewrite in_app_iff, in_map_iff.
  split.
  - intros [[H|[H|[]]]|(n & Hn & Hin)]; [lia | lia |].
    apply in_seq in Hin. lia.
  - intros [H|[H|H]]; [left; right; left; auto | left; left; auto |].
    right. exists (N.to_nat c). split; [lia|].
    apply in_seq. lia.
Qed.

(** ** The number of events of an encoding *)

Lemma table_sizes_checked :
  forallb (fun kv => entry_size_ok (snd kv)) LATIN_CHAR_TO_INPUT_EVENTS_DICT = true.
Proof. vm_compute. reflexivity. Qed.

Lemma table_entry_size (c : char) (evs : list InputEvent) :
  dict_get LATIN_CHAR_TO_INPUT_EVENTS_DICT c = Some evs ->
  (List.length evs = 4 \/ List.length evs = 6)
  /\ forall rest, evs <> mkInputEvent KEY_LEFTCTRL 1 :: rest.
Proof.
  intros Hget.
  pose proof (dict_forall _ (fun _ evs => entry_size_ok evs) _
                table_sizes_checked c evs Hget) as Hok.
  unfold entry_size_ok in Hok.
  apply andb_true_iff in Hok as [Hlen Hhead]. split.
  - apply orb_true_iff in Hlen as [H|H]; apply Nat.eqb_eq in H; auto.
  - intros rest ->. now rewrite InputEvent_eqb_refl in Hhead.
Qed.

Lemma digit_parts_length (ds : str) (parts : list (list InputEvent)) :
  Forall2 (fun d evs =>
             exists k, In k digit_keys /\ evs = _press_and_release k /\
                       dict_get LATIN_CHAR_TO_INPUT_EVENTS_DICT d = Some evs)
          ds parts ->
  List.length (concat parts) = 4 * List.length ds.
Proof.
  induction 1 as [|d evs ds parts (k & _ & -> & _) _ IH]; [reflexivity|].
  cbn [concat]. rewrite List.length_app, IH. simpl. lia.
Qed.

(** X2. The encoding of a character of the direct table has four or six
    events.  The encoding of any other character has ten events and four
    more for each digit of ['%x' % ord(char)]. *)
Theorem X2_encoding_length (fuel : nat) (c : char) :
  exists evs,
    _char_to_input_events (S (S fuel)) c = Some evs
    /\ if dict_contains LATIN_CHAR_TO_INPUT_EVENTS_DICT c
       then List.length evs = 4 \/ List.length evs = 6
       else List.length evs = 10 + 4 * List.length (format_x (ord c)).
Proof.
  destruct (dict_contains LATIN_CHAR_TO_INPUT_EVENTS_DICT c) eqn:Hc.
  - apply dict_contains_true in Hc as [evs Hget].
    exists evs. split; [now apply encode_direct|].
    now apply (table_entry_size c).
  - destruct (encode_fallback fuel c Hc) as (parts & Hparts & Henc).
    eexists. split; [exact Henc|].
    rewrite !List.length_app, (digit_parts_length _ _ Hparts). simpl. lia.
Qed.

Lemma hex_digit_value_char (v : N) :
  (v < 16)%N -> hex_digit_value (hex_digit_char v) = Some v.
Proof.
  intros Hv. unfold hex_digit_value, hex_digit_char.
  destruct (N.ltb_spec v 10).
  - destruct (N.leb_spec 48 (48 + v)); [|lia].
    destruct (N.leb_spec (48 + v) 57); [|lia].
    cbn [andb]. f_equal. lia.
  - destruct (N.leb_spec 48 (87 + v)); [|lia].
    destruct (N.leb_spec (87 + v) 57); [lia|].
    destruct (N.leb_spec 97 (87 + v)); [|lia].
    destruct (N.leb_spec (87 + v) 102); [|lia].
    cbn [andb]. f_equal. lia.
Qed.

Lemma int_of_hex_hex6 (n : N) :
  (n < 16777216)%N -> int_of_hex (hex6 n) = Some n.
Proof.
  intros Hn. unfold hex6, int_of_hex. cbn [map int_of_hex_from].
  rewrite !hex_digit_value_char by (apply N.mod_lt; discriminate).
  f_equal.
  assert (16 <> 0)%N as H16 by discriminate.
  remember (n / 16)%N as n1 eqn:Q1.
  remember (n1 / 16)%N as n2 eqn:Q2.
  remember (n2 / 16)%N as n3 eqn:Q3.
  remember (n3 / 16)%N as n4 eqn:Q4.
  remember (n4 / 16)%N as n5 eqn:Q5.
  pose proof (N.div_mod n 16 H16) as E0. rewrite <- Q1 in E0.
  pose proof (N.div_mod n1 16 H16) as E1. rewrite <- Q2 in E1.
  pose proof (N.div_mod n2 16 H16) as E2. rewrite <- Q3 in E2.
  pose proof (N.div_mod n3 16 H16) as E3. rewrite <- Q4 in E3.
  pose proof (N.div_mod n4 16 H16) as E4. rewrite <- Q5 in E4.
  clear Q1 Q2 Q3 Q4 Q5.
  remember (n mod 16)%N as d0 eqn:R0.
  remember (n1 mod 16)%N as d1 eqn:R1.
  remember (n2 mod 16)%N as d2 eqn:R2.
  remember (n3 mod 16)%N as d3 eqn:R3.
  remember (n4 mod 16)%N as d4 eqn:R4.
  clear R0 R1 R2 R3 R4.
  assert (n5 < 16)%N as Htop by lia.
  rewrite (N.mod_small _ _ Htop). lia.
Qed.

(** A Unicode code point has at most six hexadecimal digits. *)
Lemma format_x_unicode_length (n : N) :
  (n <= 0x10ffff)%N -> List.length (format_x n) <= 6.
Proof.
  intros Hn.
  apply (format_x_minimal n (hex6 n)).
  apply int_of_hex_hex6. lia.
Qed.

(** X3. For a Unicode character, a code point up to 0x10FFFF, the encoding
    has at least four and at most thirty-four events. *)
Theorem X3_encoding_length_bound (fuel : nat) (c : char) :
  (ord c <= 0x10ffff)%N ->
  exists evs,
    _char_to_input_events (S (S fuel)) c = Some evs
    /\ 4 <= List.length evs <= 34.
Proof.
  intros Hc.
  destruct (dict_contains LATIN_CHAR_TO_INPUT_EVENTS_DICT c) eqn:Hin.
  - apply dict_contains_true in Hin as [evs Hget].
    exists evs. split; [now apply encode_direct|].
    destruct (table_entry_size c evs Hget) as [[H|H] _]; lia.
  - destruct (encode_fallback fuel c Hin) as (parts & Hparts & Henc).
    eexists. split; [exact Henc|].
    rewrite !List.length_app, (digit_parts_length _ _ Hparts).
    pose proof (format_x_unicode_length (ord c) Hc). simpl. lia.
Qed.

Lemma X3_encoding_length_bound_witness :
  (ord 0x10ffff <= 0x10ffff)%N
  /\ exists evs,
       _char_to_input_events 2 0x10ffff%N = Some evs
       /\ 4 <= List.length evs <= 34.
Proof.
  split; [unfold ord; lia|].
  apply (X3_encoding_length_bound 0 0x10ffff%N). unfold ord. lia.
Defined.

(** ** Distinct characters, distinct encodings *)

Lemma table_distinct_checked :
  forallb (fun kv1 => forallb (entries_distinct kv1) LATIN_CHAR_TO_INPUT_EVENTS_DICT)
          LATIN_CHAR_TO_INPUT_EVENTS_DICT = true.
Proof. vm_compute. reflexivity. Qed.

Lemma is_plus_paren_cases (a b : char) :
  is_plus_paren a b = true ->
  (a = lit "+" /\ b = lit ")") \/ (a = lit ")" /\ b = lit "+").
Proof.
  unfold is_plus_paren. rewrite orb_true_iff, !andb_true_iff, !N.eqb_eq. tauto.
Qed.

Lemma table_injective (c1 c2 : char) (evs : list InputEvent) :
  dict_get LATIN_CHAR_TO_INPUT_EVENTS_DICT c1 = Some evs ->
  dict_get LATIN_CHAR_TO_INPUT_EVENTS_DICT c2 = Some evs ->
  c1 = c2 \/ is_plus_paren c1 c2 = true.
Proof.
  intros H1 H2. apply dict_get_In in H1, H2.
  pose proof table_distinct_checked as Hall.
  rewrite forallb_forall in Hall. specialize (Hall _ H1).
  rewrite forallb_forall in Hall. specialize (Hall _ H2).
  unfold entries_distinct in Hall. simpl in Hall.
  assert (events_eqb evs evs = true) as E by now apply events_eqb_eq.
  rewrite E in Hall. simpl in Hall.
  apply orb_true_iff in Hall as [H|H]; [left; now apply N.eqb_eq | now right].
Qed.

Lemma concat_fours_injective (p1 p2 : list (list InputEvent)) :
  Forall (fun evs => List.length evs = 4) p1 ->
  Forall (fun evs => List.length evs = 4) p2 ->
  concat p1 = concat p2 -> p1 = p2.
Proof.
  intros H1; revert p2; induction H1 as [|a p1 Ha _ IH]; intros p2 H2 Heq.
  - destruct H2 as [|b p2 Hb _]; [reflexivity|].
    destruct b; [discriminate Hb | discriminate Heq].
  - destruct H2 as [|b p2 Hb H2].
    + destruct a; [discriminate Ha | discriminate Heq].
    + cbn [concat] in Heq.
      destruct a as [|a1 [|a2 [|a3 [|a4 [|]]]]]; try discriminate Ha.
      destruct b as [|b1 [|b2 [|b3 [|b4 [|]]]]]; try discriminate Hb.
      simpl in Heq. injection Heq as -> -> -> -> Heq.
      f_equal. now apply IH.
Qed.

Lemma digits_of_parts (ds1 ds2 : str) (parts : list (list InputEvent)) :
  Forall (fun d => In d hex_digit_chars) ds1 ->
  Forall2 (fun d evs =>
             exists k, In k digit_keys /\ evs = _press_and_release k /\
                       dict_get LATIN_CHAR_TO_INPUT_EVENTS_DICT d = Some evs)
          ds1 parts ->
  Forall2 (fun d evs =>
             exists k, In k digit_keys /\ evs = _press_and_release k /\
                       dict_get LATIN_CHAR_TO_INPUT_EVENTS_DICT d = Some evs)
          ds2 parts ->
  ds1 = ds2.
Proof.
  intros Hhex H1; revert ds2.
  induction H1 as [|d evs ds1 parts (k & _ & _ & Hget) _ IH]; intros ds2 H2;
    inversion H2 as [|d' ? ds2' ? (k' & _ & _ & Hget') Hrest]; subst.
  - reflexivity.
  - inversion Hhex as [|? ? Hd Hds]; subst.
    f_equal; [|now apply IH].
    destruct (table_injective d d' evs Hget Hget') as [H|H]; [exact H|].
    exfalso. apply is_plus_paren_cases in H as [[-> _]|[-> _]];
      vm_compute in Hd; repeat (destruct Hd as [Hd|Hd]; [discriminate Hd|]);
      exact Hd.
Qed.

Lemma parts_are_fours (ds : str) (parts : list (list InputEvent)) :
  Forall2 (fun d evs =>
             exists k, In k digit_keys /\ evs = _press_and_release k /\
                       dict_get LATIN_CHAR_TO_INPUT_EVENTS_DICT d = Some evs)
          ds parts ->
  Forall (fun evs => List.length evs = 4) parts.
Proof.
  induction 1 as [|d evs ds parts (k & _ & -> & _) _ IH]; constructor; auto.
Qed.

Lemma format_x_injective (n m : N) : format_x n = format_x m -> n = m.
Proof.
  intros H. pose proof (int_of_hex_format_x n) as Hn.
  rewrite H, int_of_hex_format_x in Hn. congruence.
Qed.

(** X4. Two characters with the same encoding are the same character,
    with one exception: the plus sign and the closing parenthesis, which
    the table types alike. *)
Theorem X4_encoding_injective (fuel : nat) (c1 c2 : char) :
  _char_to_input_events (S (S fuel)) c1 = _char_to_input_events (S (S fuel)) c2 ->
  c1 = c2
  \/ (c1 = lit "+" /\ c2 = lit ")")
  \/ (c1 = lit ")" /\ c2 = lit "+").
Proof.
  destruct (dict_contains LATIN_CHAR_TO_INPUT_EVENTS_DICT c1) eqn:H1;
    destruct (dict_contains LATIN_CHAR_TO_INPUT_EVENTS_DICT c2) eqn:H2.
  - apply dict_contains_true in H1 as [e1 G1], H2 as [e2 G2].
    rewrite (encode_direct _ _ _ G1), (encode_direct _ _ _ G2).
    intros [= <-].
    destruct (table_injective c1 c2 e1 G1 G2) as [H|H]; [now left|].
    right. now apply is_plus_paren_cases.
  - apply dict_contains_true in H1 as [e1 G1].
    destruct (encode_fallback fuel c2 H2) as (parts & _ & ->).
    rewrite (encode_direct _ _ _ G1). intros H. exfalso.
    destruct (table_entry_size c1 e1 G1) as [_ Hhead].
    apply (Hhead (tl (UNICODE_INPUT_INIT_EVENT_SEQUENCE ++ concat parts
                      ++ UNICODE_INPUT_END_EVENT_SEQUENCE))).
    injection H as ->. reflexivity.
  - apply dict_contains_true in H2 as [e2 G2].
    destruct (encode_fallback fuel c1 H1) as (parts & _ & ->).
    rewrite (encode_direct _ _ _ G2). intros H. exfalso.
    destruct (table_entry_size c2 e2 G2) as [_ Hhead].
    apply (Hhead (tl (UNICODE_INPUT_INIT_EVENT_SEQUENCE ++ concat parts
                      ++ UNICODE_INPUT_END_EVENT_SEQUENCE))).
    injection H as <-. reflexivity.
  - destruct (encode_fallback fuel c1 H1) as (p1 & P1 & ->).
    destruct (encode_fallback fuel c2 H2) as (p2 & P2 & ->).
    intros H. left.
    assert (UNICODE_INPUT_INIT_EVENT_SEQUENCE ++ concat p1
              ++ UNICODE_INPUT_END_EVENT_SEQUENCE
            = UNICODE_INPUT_INIT_EVENT_SEQUENCE ++ concat p2
              ++ UNICODE_INPUT_END_EVENT_SEQUENCE) as Heq by congruence.
    apply List.app_inv_head, List.app_inv_tail in Heq.
    apply concat_fours_injective in Heq;
      [| now apply (parts_are_fours (format_x (ord c1)))
       | now apply (parts_are_fours (format_x (ord c2))) ].
    subst p2.
    apply format_x_injective.
    exact (digits_of_parts _ _ p1 (format_x_hex (ord c1)) P1 P2).
Qed.

Lemma X4_encoding_injective_witness :
  _char_to_input_events 2 (lit "+") = _char_to_input_events 2 (lit ")")
  /\ (lit "+" = lit ")"
      \/ (lit "+" = lit "+" /\ lit ")" = lit ")")
      \/ (lit "+" = lit ")" /\ lit ")" = lit "+")).
Proof.
  split; [reflexivity|].
  apply (X4_encoding_injective 0 (lit "+") (lit ")")). reflexivity.
Defined.

(** ** The modifiers during the fallback sequence *)

Lemma key_run_no_modifier_events (m : EV_KEY.t) (down : bool) (l : list InputEvent) :
  is_modifier m = true ->
  Forall (fun e => is_modifier_event e = false) l ->
  key_run m down l = Some down.
Proof.
  intros Hm H. induction H as [|e l He _ IH]; simpl; [reflexivity|].
  assert (InputEvent_eqb e (press m) = false) as ->.
  { apply InputEvent_eqb_neq. intros ->.
    unfold is_modifier_event in He. simpl in He. congruence. }
  assert (InputEvent_eqb e (release m) = false) as ->.
  { apply InputEvent_eqb_neq. intros ->.
    unfold is_modifier_event in He. simpl in He. congruence. }
  exact IH.
Qed.

Lemma digits_no_modifier_events (ds : str) (parts : list (list InputEvent)) :
  Forall2 (fun d evs =>
             exists k, In k digit_keys /\ evs = _press_and_release k /\
                       dict_get LATIN_CHAR_TO_INPUT_EVENTS_DICT d = Some evs)
          ds parts ->
  Forall (fun e => is_modifier_event e = false) (concat parts).
Proof.
  induction 1 as [|d evs ds parts (k & Hk & -> & _) _ IH]; cbn [concat].
  - constructor.
  - apply Forall_app. split; [|exact IH].
    assert (is_modifier k = false) as Hm.
    { unfold digit_keys in Hk. simpl in Hk.
      repeat (destruct Hk as [<- | Hk]; [reflexivity|]). destruct Hk. }
    unfold _press_and_release.
    repeat constructor; unfold is_modifier_event; simpl; exact Hm.
Qed.

Lemma init_presses_with_modifiers (m : EV_KEY.t)
    (before after : list InputEvent) (e : InputEvent) :
  is_modifier m = true ->
  UNICODE_INPUT_INIT_EVENT_SEQUENCE = before ++ e :: after ->
  is_plain_press e = true ->
  key_run m false before = Some true.
Proof.
  intros Hm Heq Hp. unfold UNICODE_INPUT_INIT_EVENT_SEQUENCE in Heq.
  assert (m = KEY_LEFTCTRL \/ m = KEY_LEFTSHIFT) as Hcases
    by (destruct m; try discriminate Hm; auto).
  destruct before as [|b0 [|b1 [|b2 [|b3 [|b4 [|b5 [|b6 before]]]]]]];
    simpl in Heq; injection Heq; intros; subst;
    try discriminate Hp;
    try (destruct Hcases as [-> | ->]; reflexivity).
  destruct before; discriminate.
Qed.

Lemma end_has_no_plain_press (before after : list InputEvent) (e : InputEvent) :
  UNICODE_INPUT_END_EVENT_SEQUENCE = before ++ e :: after ->
  is_plain_press e = false.
Proof.
  intros Heq. unfold UNICODE_INPUT_END_EVENT_SEQUENCE in Heq.
  destruct before as [|b0 [|b1 [|b2 before]]];
    simpl in Heq; injection Heq; intros; subst; try reflexivity.
  destruct before; discriminate.
Qed.

(** X5. In the encoding of a character outside the direct table, every
    press of a key other than control and shift (the key u and the keys of
    the digits) comes while control and shift are both held; and both are
    up again at the end of the sequence. *)
Theorem X5_fallback_modifiers_held (fuel : nat) (c : char) (evs : list InputEvent) :
  dict_contains LATIN_CHAR_TO_INPUT_EVENTS_DICT c = false ->
  _char_to_input_events (S (S fuel)) c = Some evs ->
  (forall before e after,
      evs = before ++ e :: after ->
      is_plain_press e = true ->
      key_run KEY_LEFTCTRL false before = Some true
      /\ key_run KEY_LEFTSHIFT false before = Some true)
  /\ key_run KEY_LEFTCTRL false evs = Some false
  /\ key_run KEY_LEFTSHIFT false evs = Some false.
Proof.
  intros Hc Henc.
  split; [|split; now apply (key_run_encode fuel c)].
  destruct (encode_fallback fuel c Hc) as (parts & Hparts & Hevs).
  assert (evs = UNICODE_INPUT_INIT_EVENT_SEQUENCE ++ concat parts
                ++ UNICODE_INPUT_END_EVENT_SEQUENCE) as -> by congruence.
  clear Henc Hevs.
  pose proof (digits_no_modifier_events _ _ Hparts) as Hdigits.
  intros before e after Heq Hp.
  assert (forall m, is_modifier m = true -> key_run m false before = Some true)
    as Hboth; [|split; apply Hboth; reflexivity].
  intros m Hm.
  apply app_eq_app in Heq as [l [[Hinit Hrest]|[Hbefore Hrest]]].
  - destruct l as [|x l].
    + rewrite List.app_nil_r in Hinit. subst before.
      rewrite key_run_init, Hm. reflexivity.
    + injection Hrest as <- _.
      now apply (init_presses_with_modifiers m before l e).
  - subst before. rewrite key_run_app, key_run_init, Hm. cbv beta iota.
    apply key_run_no_modifier_events; [exact Hm|].
    apply app_eq_app in Hrest as [l2 [[Hd _]|[_ Hend]]].
    + rewrite Hd in Hdigits. now apply Forall_app in Hdigits as [H _].
    + exfalso. pose proof (end_has_no_plain_press l2 after e Hend). congruence.
Qed.

Lemma X5_fallback_modifiers_held_witness :
  dict_contains LATIN_CHAR_TO_INPUT_EVENTS_DICT euro = false
  /\ _char_to_input_events 2 euro =
       Some (UNICODE_INPUT_INIT_EVENT_SEQUENCE
             ++ _press_and_release KEY_2 ++ _press_and_release KEY_0
             ++ _press_and_release KEY_A ++ _press_and_release KEY_C
             ++ UNICODE_INPUT_END_EVENT_SEQUENCE)
  /\ ((forall before e after,
          UNICODE_INPUT_INIT_EVENT_SEQUENCE
          ++ _press_and_release KEY_2 ++ _press_and_release KEY_0
          ++ _press_and_release KEY_A ++ _press_and_release KEY_C
          ++ UNICODE_INPUT_END_EVENT_SEQUENCE = before ++ e :: after ->
          is_plain_press e = true ->
          key_run KEY_LEFTCTRL false before = Some true
          /\ key_run KEY_LEFTSHIFT false before = Some true)
      /\ key_run KEY_LEFTCTRL false
           (UNICODE_INPUT_INIT_EVENT_SEQUENCE
            ++ _press_and_release KEY_2 ++ _press_and_release KEY_0
            ++ _press_and_release KEY_A ++ _press_and_release KEY_C
            ++ UNICODE_INPUT_END_EVENT_SEQUENCE) = Some false
      /\ key_run KEY_LEFTSHIFT false
           (UNICODE_INPUT_INIT_EVENT_SEQUENCE
            ++ _press_and_release KEY_2 ++ _press_and_release KEY_0
            ++ _press_and_release KEY_A ++ _press_and_release KEY_C
            ++ UNICODE_INPUT_END_EVENT_SEQUENCE) = Some false).
Proof.
  split; [reflexivity|]. split; [reflexivity|].
  apply (X5_fallback_modifiers_held 0 euro); reflexivity.
Defined.

(** ** How the emulation methods compose *)

Lemma send_string_batch
    (write_fails : Device -> list InputEvent -> InputEvent -> option PyExc)
    (fuel : nat) (string : str) (seqs : list (list InputEvent)) (dev : Device) :
  Forall2 (fun c evs => _char_to_input_events fuel c = Some evs) string seqs ->
  send_string write_fails fuel string dev =
    Some (_send_events write_fails (concat seqs) dev).
Proof.
  intros H. unfold send_string. apply map_opt_Forall2 in H. now rewrite H.
Qed.

(** X6. When no write fails, sending a string in two parts, one call for
    each, delivers the very events of sending it whole, in the same order:
    only as two batches where the whole string makes one. *)
Theorem X6_send_string_split
    (write_fails : Device -> list InputEvent -> InputEvent -> option PyExc)
    (fuel : nat) (s1 s2 : str) (dev : Device) :
  (forall d w e, write_fails d w e = None) ->
  exists dev1 dev2 dev12,
    send_string write_fails (S (S fuel)) s1 dev = Some (Return tt, dev1)
    /\ send_string write_fails (S (S fuel)) s2 dev1 = Some (Return tt, dev2)
    /\ send_string write_fails (S (S fuel)) (s1 ++ s2) dev = Some (Return tt, dev12)
    /\ concat dev2 = concat dev12
    /\ List.length dev2 = 2 + List.length dev
    /\ List.length dev12 = 1 + List.length dev.
Proof.
  intros Hok.
  destruct (send_string_encodes fuel s1) as [q1 H1].
  destruct (send_string_encodes fuel s2) as [q2 H2].
  pose proof (Forall2_app H1 H2) as H12.
  exists (dev ++ [concat q1]), ((dev ++ [concat q1]) ++ [concat q2]),
         (dev ++ [concat (q1 ++ q2)]).
  rewrite (send_string_batch write_fails _ _ _ dev H1),
          (send_string_batch write_fails _ _ _ (dev ++ [concat q1]) H2),
          (send_string_batch write_fails _ _ _ dev H12).
  rewrite !(send_events_ok write_fails _ _ Hok).
  repeat split.
  - rewrite !List.concat_app. simpl. rewrite !List.app_nil_r.
    now rewrite List.app_assoc.
  - rewrite !List.length_app. simpl. lia.
  - rewrite !List.length_app. simpl. lia.
Qed.

Lemma X6_send_string_split_witness :
  (forall (d : Device) (w : list InputEvent) (e : InputEvent),
      (fun _ _ _ => @None PyExc) d w e = None)
  /\ exists dev1 dev2 dev12,
       send_string (fun _ _ _ => None) 2 [lit "h"] [] = Some (Return tt, dev1)
       /\ send_string (fun _ _ _ => None) 2 [lit "i"] dev1 = Some (Return tt, dev2)
       /\ send_string (fun _ _ _ => None) 2 ([lit "h"] ++ [lit "i"]) []
          = Some (Return tt, dev12)
       /\ concat dev2 = concat dev12
       /\ List.length dev2 = 2 + List.length (@nil (list InputEvent))
       /\ List.length dev12 = 1 + List.length (@nil (list InputEvent)).
Proof.
  split; [reflexivity|].
  apply (X6_send_string_split (fun _ _ _ => None) 0 [lit "h"] [lit "i"] []).
  reflexivity.
Defined.

Lemma for_range_add (n m : nat) (body : Device -> result unit * Device) (dev : Device) :
  for_range (n + m) body dev =
    match for_range n body dev with
    | (Return _, dev') => for_range m body dev'
    | (Raise e, dev') => (Raise e, dev')
    end.
Proof.
  revert dev; induction n as [|n IH]; intros dev; simpl; [reflexivity|].
  destruct (body dev) as [[u|e] dev']; [apply IH | reflexivity].
Qed.

(** X7. For counts that are not negative, [send_backspaces] of a sum is
    [send_backspaces] of the first count and then, unless that raised, of
    the second; when the first raises, nothing more is sent. *)
Theorem X7_send_backspaces_add
    (write_fails : Device -> list InputEvent -> InputEvent -> option PyExc)
    (count1 count2 : Z) (dev : Device) :
  (0 <= count1)%Z -> (0 <= count2)%Z ->
  send_backspaces write_fails (count1 + count2) dev =
    match send_backspaces write_fails count1 dev with
    | (Return _, dev') => send_backspaces write_fails count2 dev'
    | (Raise e, dev') => (Raise e, dev')
    end.
Proof.
  intros H1 H2. unfold send_backspaces, range_len.
  rewrite Z2Nat.inj_add by assumption.
  apply for_range_add.
Qed.

Lemma X7_send_backspaces_add_witness :
  (0 <= 2)%Z /\ (0 <= 1)%Z
  /\ send_backspaces
       (fun dev _ _ => if Nat.eqb (List.length dev) 1
                     then Some (OSError "write failed") else None)
       (2 + 1) [] =
     match send_backspaces
             (fun dev _ _ => if Nat.eqb (List.length dev) 1
                           then Some (OSError "write failed") else None)
             2 [] with
     | (Return _, dev') =>
         send_backspaces
           (fun dev _ _ => if Nat.eqb (List.length dev) 1
                         then Some (OSError "write failed") else None)
           1 dev'
     | (Raise e, dev') => (Raise e, dev')
     end.
Proof.
  split; [lia|]. split; [lia|].
  apply (X7_send_backspaces_add
           (fun dev _ _ => if Nat.eqb (List.length dev) 1
                         then Some (OSError "write failed") else None)
           2 1 []); lia.
Defined.

(** ** What a session of calls delivers *)

Lemma key_run_concat (k : EV_KEY.t) (seqs : list (list InputEvent)) :
  Forall (fun evs => key_run k false evs = Some false) seqs ->
  key_run k false (concat seqs) = Some false.
Proof.
  induction 1 as [|evs seqs Hevs _ IH]; cbn [concat]; [reflexivity|].
  rewrite key_run_app, Hevs. exact IH.
Qed.

Lemma key_run_backspace_group (k : EV_KEY.t) :
  key_run k false backspace_group = Some false.
Proof.
  apply (key_run_press_and_release k KEY_BACKSPACE false). discriminate.
Qed.

Lemma key_run_string_batch (fuel : nat) (k : EV_KEY.t) (string : str)
    (seqs : list (list InputEvent)) :
  Forall2 (fun c evs => _char_to_input_events (S (S fuel)) c = Some evs) string seqs ->
  key_run k false (concat seqs) = Some false.
Proof.
  intros H. apply key_run_concat.
  induction H as [|c evs string seqs Hc _ IH]; constructor; [|exact IH].
  exact (key_run_encode fuel c evs k Hc).
Qed.

Lemma string_batch_marker (fuel : nat) (string : str) (seqs : list (list InputEvent)) :
  Forall2 (fun c evs => _char_to_input_events (S (S fuel)) c = Some evs) string seqs ->
  concat seqs = [] \/ ends_with_marker (concat seqs).
Proof.
  induction 1 as [|c evs string seqs Hc _ IH]; [now left|].
  right. cbn [concat].
  destruct IH as [-> | [front ->]].
  - rewrite List.app_nil_r. exact (encode_ends_with_marker fuel c evs Hc).
  - exists (evs ++ front). now rewrite List.app_assoc.
Qed.

Lemma for_range_ok
    (write_fails : Device -> list InputEvent -> InputEvent -> option PyExc)
    (batch : list InputEvent) (n : nat) (dev : Device) :
  (forall d w e, write_fails d w e = None) ->
  for_range n (_send_events write_fails batch) dev
  = (Return tt, dev ++ repeat batch n).
Proof.
  intros Hok. revert dev; induction n as [|n IH]; intros dev; cbn [for_range].
  - simpl. now rewrite List.app_nil_r.
  - rewrite (send_events_ok write_fails batch dev Hok), IH.
    simpl. now rewrite <- List.app_assoc.
Qed.

(** What the invariant of a session is: with all keys up at the start, the
    events delivered so far leave every key up, and every batch is empty or
    ends with the marker. *)
Lemma ev_ke_call_keeps
    (write_fails : Device -> list InputEvent -> InputEvent -> option PyExc)
    (fuel : nat) (call : EmulationCall) (dev : Device) :
  (forall d w e, write_fails d w e = None) ->
  (forall k, key_run k false (concat dev) = Some false) ->
  Forall (fun b => b = [] \/ ends_with_marker b) dev ->
  exists dev',
    ev_ke_call write_fails (S (S fuel)) call dev = Some (call_outcome call, dev')
    /\ (forall k, key_run k false (concat dev') = Some false)
    /\ Forall (fun b => b = [] \/ ends_with_marker b) dev'.
Proof.
  intros Hok Hkeys Hmark. destruct call as [count|string|combo]; simpl.
  - unfold send_backspaces. fold backspace_group.
    rewrite (for_range_ok write_fails backspace_group _ dev Hok).
    eexists. split; [reflexivity|]. split.
    + intros k. rewrite List.concat_app, key_run_app, Hkeys.
      apply key_run_concat. apply Forall_forall. intros b Hb.
      apply repeat_spec in Hb as ->. apply key_run_backspace_group.
    + apply Forall_app. split; [exact Hmark|].
      apply Forall_forall. intros b Hb. apply repeat_spec in Hb as ->.
      right. now exists [BACKSPACE_PRESS; SYN_REPORT; BACKSPACE_RELEASE].
  - destruct (send_string_encodes fuel string) as [seqs Hseqs].
    rewrite (send_string_batch write_fails _ _ _ dev Hseqs).
    rewrite (send_events_ok write_fails _ dev Hok).
    eexists. split; [reflexivity|]. split.
    + intros k. rewrite List.concat_app, key_run_app, Hkeys.
      simpl. rewrite List.app_nil_r.
      exact (key_run_string_batch fuel k string seqs Hseqs).
    + apply Forall_app. split; [exact Hmark|].
      constructor; [|constructor].
      exact (string_batch_marker fuel string seqs Hseqs).
  - exists dev. auto.
Qed.

Lemma ev_ke_calls_keep
    (write_fails : Device -> list InputEvent -> InputEvent -> option PyExc)
    (fuel : nat) (calls : list EmulationCall) (dev : Device) :
  (forall d w e, write_fails d w e = None) ->
  (forall k, key_run k false (concat dev) = Some false) ->
  Forall (fun b => b = [] \/ ends_with_marker b) dev ->
  exists dev',
    ev_ke_calls write_fails (S (S fuel)) calls dev
    = Some (map call_outcome calls, dev')
    /\ (forall k, key_run k false (concat dev') = Some false)
    /\ Forall (fun b => b = [] \/ ends_with_marker b) dev'.
Proof.
  intros Hok.
  revert dev; induction calls as [|call calls IH]; intros dev Hkeys Hmark.
  - exists dev. simpl. auto.
  - destruct (ev_ke_call_keeps write_fails fuel call dev Hok Hkeys Hmark)
      as (dev1 & Hcall & Hkeys1 & Hmark1).
    destruct (IH dev1 Hkeys1 Hmark1) as (dev' & Hrest & Hk & Hm).
    exists dev'. cbn [ev_ke_calls map]. rewrite Hcall, Hrest. auto.
Qed.

(** X8. When no write to the device fails, whatever calls of
    [send_backspaces], [send_string] and [send_key_combination] a client
    makes on a new libevdev emulation, in any order, every call has its
    outcome (with a fuel of two or more): [send_key_combination] raises
    [NotImplementedError] and the other two return.  The events the device
    has received in all leave no key held: they have as many presses as
    releases of each key, no key is pressed again before it is released,
    and every batch is empty or ends with the marker. *)
Theorem X8_session_leaves_keys_up
    (write_fails : Device -> list InputEvent -> InputEvent -> option PyExc)
    (fuel : nat) (calls : list EmulationCall) :
  (forall d w e, write_fails d w e = None) ->
  exists dev,
    ev_ke_calls write_fails (S (S fuel)) calls []
    = Some (map (fun call =>
                   match call with
                   | Send_key_combination _ => Raise NotImplementedError
                   | _ => Return tt
                   end) calls,
            dev)
    /\ balanced (concat dev)
    /\ no_self_overlap (concat dev)
    /\ Forall (fun b => b = [] \/ ends_with_marker b) dev.
Proof.
  intros Hok.
  destruct (ev_ke_calls_keep write_fails fuel calls [] Hok)
    as (dev & Hrun & Hkeys & Hmark).
  - reflexivity.
  - constructor.
  - exists dev. split; [exact Hrun|]. split; [|split].
    + now apply key_run_balanced.
    + now apply key_run_no_self_overlap.
    + exact Hmark.
Qed.

Lemma X8_session_leaves_keys_up_witness :
  (forall (d : Device) (w : list InputEvent) (e : InputEvent),
      (fun _ _ _ => @None PyExc) d w e = None)
  /\ exists dev,
       ev_ke_calls (fun _ _ _ => None) 2
         [Send_string [lit "A"]; Send_key_combination [lit "a"]; Send_backspaces 2] []
       = Some (map (fun call =>
                      match call with
                      | Send_key_combination _ => Raise NotImplementedError
                      | _ => Return tt
                      end)
                   [Send_string [lit "A"]; Send_key_combination [lit "a"];
                    Send_backspaces 2],
               dev)
       /\ balanced (concat dev)
       /\ no_self_overlap (concat dev)
       /\ Forall (fun b => b = [] \/ ends_with_marker b) dev.
Proof.
  split; [reflexivity|].
  apply (X8_session_leaves_keys_up (fun _ _ _ => None) 0
           [Send_string [lit "A"]; Send_key_combination [lit "a"];
            Send_backspaces 2]).
  reflexivity.
Defined.

(** ** The key names *)

Lemma keyname_get_In (d : list (string * char)) (name : string) (c : char) :
  keyname_get d name = Some c -> In (name, c) d.
Proof.
  induction d as [|[name' c'] d IH]; simpl; [discriminate|].
  destruct (String.eqb_spec name' name) as [->|_].
  - intros [= ->]. now left.
  - intros H. right. now apply IH.
Qed.

Lemma keynames_checked : forallb keyname_entry_ok KEYNAME_TO_CHAR = true.
Proof. vm_compute. reflexivity. Qed.

(** X9. Every character that [KEYNAME_TO_CHAR] gives for a key name is an
    ASCII character.  For every name but return it is a character of the
    direct table.  For return it is the carriage return, which is not in
    the table (the table has the newline), so that it is typed through the
    Unicode fallback. *)
Theorem X9_keyname_characters (name : string) (c : char) :
  keyname_get KEYNAME_TO_CHAR name = Some c ->
  (c < 128)%N
  /\ if String.eqb name "return"
     then c = 13%N /\ dict_contains LATIN_CHAR_TO_INPUT_EVENTS_DICT c = false
     else dict_contains LATIN_CHAR_TO_INPUT_EVENTS_DICT c = true.
Proof.
  intros Hget. apply keyname_get_In in Hget.
  pose proof keynames_checked as Hall. rewrite forallb_forall in Hall.
  specialize (Hall _ Hget). unfold keyname_entry_ok in Hall. simpl in Hall.
  apply andb_true_iff in Hall as [Hascii Hrest].
  split; [now apply N.ltb_lt|].
  destruct (String.eqb name "return").
  - apply andb_true_iff in Hrest as [Hc Hnot].
    split; [now apply N.eqb_eq | now apply negb_true_iff].
  - exact Hrest.
Qed.

Lemma X9_keyname_characters_witness :
  keyname_get KEYNAME_TO_CHAR "return" = Some 13%N
  /\ ((13 < 128)%N
      /\ if String.eqb "return" "return"
         then 13%N = 13%N
              /\ dict_contains LATIN_CHAR_TO_INPUT_EVENTS_DICT 13%N = false
         else dict_contains LATIN_CHAR_TO_INPUT_EVENTS_DICT 13%N = true).
Proof.
  split; [reflexivity|].
  apply (X9_keyname_characters "return" 13%N). reflexivity.
Defined.

(** ** Letters *)

Lemma letters_checked :
  forallb letter_pair_ok (map N.of_nat (seq 97 26)) = true.
Proof. vm_compute. reflexivity. Qed.

(** X10. Each lower-case letter, a to z, is typed as its key alone, and
    its upper-case letter, 32 code points below, as the same key with
    shift. *)
Theorem X10_letter_case (c : char) :
  (97 <= c <= 122)%N ->
  exists k,
    k <> KEY_LEFTSHIFT
    /\ dict_get LATIN_CHAR_TO_INPUT_EVENTS_DICT c = Some (_press_and_release k)
    /\ dict_get LATIN_CHAR_TO_INPUT_EVENTS_DICT (c - 32)%N
       = Some (_shift_press_and_release k).
Proof.
  intros Hc.
  assert (In c (map N.of_nat (seq 97 26))) as Hin.
  { apply in_map_iff. exists (N.to_nat c). split; [lia|]. apply in_seq. lia. }
  pose proof letters_checked as Hall. rewrite forallb_forall in Hall.
  specialize (Hall c Hin). unfold letter_pair_ok in Hall.
  destruct (dict_get LATIN_CHAR_TO_INPUT_EVENTS_DICT c) as [[|[[k|s] v] rest]|] eqn:Hlow;
    try discriminate Hall.
  apply andb_true_iff in Hall as [Hall Hup].
  apply andb_true_iff in Hall as [Hk Hshape].
  apply events_eqb_eq in Hshape.
  exists k. split; [|split].
  - intros ->. discriminate Hk.
  - now rewrite <- Hshape.
  - destruct (dict_get LATIN_CHAR_TO_INPUT_EVENTS_DICT (c - 32)%N) as [up|];
      [|discriminate Hup].
    simpl in Hup. apply events_eqb_eq in Hup. now subst.
Qed.

Lemma X10_letter_case_witness :
  (97 <= lit "q" <= 122)%N
  /\ exists k,
       k <> KEY_LEFTSHIFT
       /\ dict_get LATIN_CHAR_TO_INPUT_EVENTS_DICT (lit "q")
          = Some (_press_and_release k)
       /\ dict_get LATIN_CHAR_TO_INPUT_EVENTS_DICT (lit "q" - 32)%N
          = Some (_shift_press_and_release k).
Proof.
  split; [vm_compute; split; discriminate|].
  apply (X10_letter_case (lit "q")). vm_compute. split; discriminate.
Defined.

(** ** The methods of the facades *)

Lemma dispatch_keeps_backend (Ev X11 : Type)
    (ev_method : Ev -> result unit * Ev) (x11_method : X11 -> result unit * X11)
    (delegate : Delegate Ev X11) :
  is_libevdev (snd (dispatch ev_method x11_method delegate)) = is_libevdev delegate.
Proof.
  destruct delegate as [o|o]; simpl.
  - now destruct (ev_method o).
  - now destruct (x11_method o).
Qed.

Lemma KeyboardEmulation_call_keeps_backend (X11Emulation : Type)
    (x11_send_backspaces : Z -> X11Emulation -> result unit * X11Emulation)
    (x11_send_string : str -> X11Emulation -> result unit * X11Emulation)
    (x11_send_key_combination : str -> X11Emulation -> result unit * X11Emulation)
    (write_fails : Device -> list InputEvent -> InputEvent -> option PyExc) (fuel : nat)
    (call : EmulationCall) (delegate delegate' : Delegate Device X11Emulation)
    (r : result unit) :
  KeyboardEmulation_call x11_send_backspaces x11_send_string
    x11_send_key_combination write_fails fuel call delegate = Some (r, delegate') ->
  is_libevdev delegate' = is_libevdev delegate.
Proof.
  destruct call as [count|string|combo]; simpl.
  - unfold KeyboardEmulation_send_backspaces. intros [= H].
    pose proof (dispatch_keeps_backend _ _ (send_backspaces write_fails count)
                  (x11_send_backspaces count) delegate) as Hd.
    now rewrite H in Hd.
  - unfold KeyboardEmulation_send_string.
    destruct delegate as [dev|o].
    + destruct (send_string write_fails fuel string dev) as [[r' dev']|];
        [|discriminate]. now intros [= _ <-].
    + destruct (x11_send_string string o). now intros [= _ <-].
  - unfold KeyboardEmulation_send_key_combination. intros [= H].
    pose proof (dispatch_keeps_backend _ _ (send_key_combination combo)
                  (x11_send_key_combination combo) delegate) as Hd.
    now rewrite H in Hd.
Qed.

Lemma KeyboardEmulation_call_total (X11Emulation : Type)
    (x11_send_backspaces : Z -> X11Emulation -> result unit * X11Emulation)
    (x11_send_string : str -> X11Emulation -> result unit * X11Emulation)
    (x11_send_key_combination : str -> X11Emulation -> result unit * X11Emulation)
    (write_fails : Device -> list InputEvent -> InputEvent -> option PyExc)
    (fuel : nat)
    (call : EmulationCall) (delegate : Delegate Device X11Emulation) :
  exists r delegate',
    KeyboardEmulation_call x11_send_backspaces x11_send_string
      x11_send_key_combination write_fails (S (S fuel)) call delegate
    = Some (r, delegate').
Proof.
  destruct call as [count|string|combo]; simpl.
  - destruct (KeyboardEmulation_send_backspaces x11_send_backspaces write_fails
                count delegate) as [r d]. eauto.
  - unfold KeyboardEmulation_send_string. destruct delegate as [dev|o].
    + destruct (send_string_encodes fuel string) as [seqs Hseqs].
      rewrite (send_string_batch write_fails _ _ _ dev Hseqs).
      destruct (_send_events write_fails (concat seqs) dev) as [r d]. eauto.
    + destruct (x11_send_string string o) as [r o']. eauto.
  - destruct (KeyboardEmulation_send_key_combination x11_send_key_combination
                combo delegate) as [r d]. eauto.
Qed.

(** With an X11 delegate a call does not use the libevdev device nor the
    encoding. *)
Lemma KeyboardEmulation_calls_x11 (X11Emulation : Type)
    (x11_send_backspaces : Z -> X11Emulation -> result unit * X11Emulation)
    (x11_send_string : str -> X11Emulation -> result unit * X11Emulation)
    (x11_send_key_combination : str -> X11Emulation -> result unit * X11Emulation)
    (wf1 wf2 : Device -> list InputEvent -> InputEvent -> option PyExc)
    (fuel1 fuel2 : nat)
    (calls : list EmulationCall) (o : X11Emulation) :
  KeyboardEmulation_calls x11_send_backspaces x11_send_string
    x11_send_key_combination wf1 fuel1 calls (Xlib o)
  = KeyboardEmulation_calls x11_send_backspaces x11_send_string
      x11_send_key_combination wf2 fuel2 calls (Xlib o).
Proof.
  revert o; induction calls as [|call calls IH]; intros o; [reflexivity|].
  cbn [KeyboardEmulation_calls].
  destruct call as [count|string|combo]; simpl.
  - destruct (x11_send_backspaces count o) as [r o']. now rewrite IH.
  - destruct (x11_send_string string o) as [r o']. now rewrite IH.
  - destruct (x11_send_key_combination combo o) as [r o']. now rewrite IH.
Qed.

(** X11. Whatever calls a client makes on the emulation facade, and
    whichever of them raise, every call has an outcome (the session returns
    with every fuel from two on), and the facade holds a delegate of the
    same backend after the calls as before: no call switches from libevdev
    to X11 or back.  With an X11 delegate, the session does not depend on
    the libevdev device or on the encoding at all. *)
Theorem X11_facade_backend_fixed (X11Emulation : Type)
    (x11_send_backspaces : Z -> X11Emulation -> result unit * X11Emulation)
    (x11_send_string : str -> X11Emulation -> result unit * X11Emulation)
    (x11_send_key_combination : str -> X11Emulation -> result unit * X11Emulation)
    (write_fails : Device -> list InputEvent -> InputEvent -> option PyExc)
    (fuel : nat)
    (calls : list EmulationCall) (delegate : Delegate Device X11Emulation) :
  (exists rs delegate',
      KeyboardEmulation_calls x11_send_backspaces x11_send_string
        x11_send_key_combination write_fails (S (S fuel)) calls delegate
      = Some (rs, delegate')
      /\ is_libevdev delegate' = is_libevdev delegate
      /\ List.length rs = List.length calls)
  /\ (forall o wf' fuel',
        KeyboardEmulation_calls x11_send_backspaces x11_send_string
          x11_send_key_combination wf' fuel' calls (Xlib o)
        = KeyboardEmulation_calls x11_send_backspaces x11_send_string
            x11_send_key_combination write_fails (S (S fuel)) calls (Xlib o)).
Proof.
  split; [|intros o wf' fuel'; apply KeyboardEmulation_calls_x11].
  revert delegate; induction calls as [|call calls IH]; intros delegate.
  - exists [], delegate. simpl. auto.
  - destruct (KeyboardEmulation_call_total _ x11_send_backspaces x11_send_string
                x11_send_key_combination write_fails fuel call delegate)
      as (r & d1 & Hcall).
    destruct (IH d1) as (rs & d2 & Hrest & Hb & Hl).
    exists (r :: rs), d2. cbn [KeyboardEmulation_calls].
    rewrite Hcall, Hrest.
    apply KeyboardEmulation_call_keeps_backend in Hcall.
    split; [reflexivity|]. split; [congruence | simpl; congruence].
Qed.

Lemma ev_ke_calls_key_combination
    (write_fails : Device -> list InputEvent -> InputEvent -> option PyExc) (fuel : nat)
    (calls : list EmulationCall) (dev dev' : Device) (rs : list (result unit)) :
  ev_ke_calls write_fails fuel calls dev = Some (rs, dev') ->
  forall i combo,
    nth_error calls i = Some (Send_key_combination combo) ->
    nth_error rs i = Some (Raise NotImplementedError).
Proof.
  revert dev rs; induction calls as [|call calls IH]; intros dev rs Hrun i combo Hi.
  - destruct i; discriminate Hi.
  - cbn [ev_ke_calls] in Hrun.
    destruct (ev_ke_call write_fails fuel call dev) as [[r d1]|] eqn:Hcall;
      [|discriminate].
    destruct (ev_ke_calls write_fails fuel calls d1) as [[rs' d2]|] eqn:Hrest;
      [|discriminate].
    injection Hrun as <- <-.
    destruct i as [|i]; simpl in *.
    + injection Hi as ->. simpl in Hcall. now injection Hcall as <- _.
    + exact (IH d1 rs' Hrest i combo Hi).
Qed.

(** X12. On a facade whose delegate is the libevdev emulation, a session of
    calls is the session of the same calls on the libevdev object, whatever
    the X11 methods are: the X11 backend is not used.  So every
    [send_key_combination] raises [NotImplementedError], and the device is
    the same after it as before. *)
Theorem X12_libevdev_facade_session (X11Emulation : Type)
    (x11_send_backspaces : Z -> X11Emulation -> result unit * X11Emulation)
    (x11_send_string : str -> X11Emulation -> result unit * X11Emulation)
    (x11_send_key_combination : str -> X11Emulation -> result unit * X11Emulation)
    (write_fails : Device -> list InputEvent -> InputEvent -> option PyExc) (fuel : nat)
    (calls : list EmulationCall) (dev : Device) :
  KeyboardEmulation_calls x11_send_backspaces x11_send_string
    x11_send_key_combination write_fails fuel calls (Libevdev dev)
  = match ev_ke_calls write_fails fuel calls dev with
    | Some (rs, dev') => Some (rs, Libevdev dev')
    | None => None
    end
  /\ (forall rs dev',
        ev_ke_calls write_fails fuel calls dev = Some (rs, dev') ->
        forall i combo,
          nth_error calls i = Some (Send_key_combination combo) ->
          nth_error rs i = Some (Raise NotImplementedError))
  /\ (forall combo,
        KeyboardEmulation_send_key_combination x11_send_key_combination combo
          (Libevdev dev)
        = (Raise NotImplementedError, Libevdev dev)).
Proof.
  split; [|split].
  - revert dev; induction calls as [|call calls IH]; intros dev; [reflexivity|].
    cbn [KeyboardEmulation_calls ev_ke_calls].
    assert (KeyboardEmulation_call x11_send_backspaces x11_send_string
              x11_send_key_combination write_fails fuel call (Libevdev dev)
            = match ev_ke_call write_fails fuel call dev with
              | Some (r, dev') => Some (r, Libevdev dev')
              | None => None
              end) as ->.
    { destruct call as [count|string|combo]; simpl.
      - unfold KeyboardEmulation_send_backspaces, dispatch.
        now destruct (send_backspaces write_fails count dev).
      - now destruct (send_string write_fails fuel string dev) as [[r d]|].
      - reflexivity. }
    destruct (ev_ke_call write_fails fuel call dev) as [[r d1]|]; [|reflexivity].
    rewrite IH.
    now destruct (ev_ke_calls write_fails fuel calls d1) as [[rs d2]|].
  - intros rs dev'. apply ev_ke_calls_key_combination.
  - reflexivity.
Qed.

(** X13. When the constructor of the capture facade returns, [start],
    [cancel] and [suppress] of the facade are the methods of the X11 object
    it holds: the libevdev methods, which only raise [NotImplementedError],
    are never reached through the facade. *)
Theorem X13_capture_facade_methods (X11Capture : Type)
    (x11_kc_outcome : Trace -> result X11Capture)
    (x11_start x11_cancel : X11Capture -> result unit * X11Capture)
    (x11_suppress : list str -> X11Capture -> result unit * X11Capture)
    (tr tr' : Trace) (d : Delegate EvCapture X11Capture) :
  KeyboardCapture_init x11_kc_outcome tr = (Return d, tr') ->
  exists o,
    d = Xlib o
    /\ KeyboardCapture_start x11_start d
       = (fst (x11_start o), Xlib (snd (x11_start o)))
    /\ KeyboardCapture_cancel x11_cancel d
       = (fst (x11_cancel o), Xlib (snd (x11_cancel o)))
    /\ (forall keys,
          KeyboardCapture_suppress x11_suppress keys d
          = (fst (x11_suppress keys o), Xlib (snd (x11_suppress keys o))))
    /\ (forall e : EvCapture,
          fst (ev_kc_start e) = Raise NotImplementedError
          /\ fst (ev_kc_cancel e) = Raise NotImplementedError
          /\ forall keys, fst (ev_kc_suppress keys e) = Raise NotImplementedError).
Proof.
  rewrite KeyboardCapture_init_eq.
  destruct (x11_kc_outcome _) as [o|e]; intros H; [|discriminate].
  injection H as <- _. exists o. split; [reflexivity|].
  unfold KeyboardCapture_start, KeyboardCapture_cancel, KeyboardCapture_suppress,
    dispatch.
  split; [now destruct (x11_start o)|].
  split; [now destruct (x11_cancel o)|].
  split; [intros keys; now destruct (x11_suppress keys o)|].
  intros e. repeat split.
Qed.

Lemma X13_capture_facade_methods_witness :
  KeyboardCapture_init (fun _ => Return tt) []
    = (Return (Xlib tt),
       [ Call_ev_kc;
         Log_warning
           "Keyboard capture falling back to X11 as libevdev backend failed: ";
         Call_x11_kc ])
  /\ exists o,
       @Xlib EvCapture unit tt = Xlib o
       /\ KeyboardCapture_start (fun u : unit => (Return tt, u)) (Xlib tt)
          = (fst ((fun u : unit => (Return tt, u)) o),
             Xlib (snd ((fun u : unit => (@Return unit tt, u)) o)))
       /\ KeyboardCapture_cancel (fun u : unit => (Return tt, u)) (Xlib tt)
          = (fst ((fun u : unit => (Return tt, u)) o),
             Xlib (snd ((fun u : unit => (@Return unit tt, u)) o)))
       /\ (forall keys,
             KeyboardCapture_suppress
               (fun (_ : list str) (u : unit) => (Return tt, u)) keys (Xlib tt)
             = (fst ((fun (_ : list str) (u : unit) => (Return tt, u)) keys o),
                Xlib (snd ((fun (_ : list str) (u : unit) =>
                              (@Return unit tt, u)) keys o))))
       /\ (forall e : EvCapture,
             fst (ev_kc_start e) = Raise NotImplementedError
             /\ fst (ev_kc_cancel e) = Raise NotImplementedError
             /\ forall keys,
                  fst (ev_kc_suppress keys e) = Raise NotImplementedError).
Proof.
  split; [reflexivity|].
  apply (X13_capture_facade_methods unit (fun _ => Return tt)
           (fun u => (Return tt, u)) (fun u => (Return tt, u))
           (fun _ u => (Return tt, u)) []
           [ Call_ev_kc;
             Log_warning
               "Keyboard capture falling back to X11 as libevdev backend failed: ";
             Call_x11_kc ]
           (Xlib tt)).
  reflexivity.
Defined.
